(** * go-sourcegraph: pull-request specs, route variables and person specs

    A shallow embedding of [sourcegraph/pulls.go] together with the parts of
    Go's [strconv] and [strings] packages that it calls.

    Conventions.
    - A Go [string] is a sequence of bytes: Rocq's [string] (a list of
      8-bit [ascii]).
    - A Go [int] is a 64-bit signed integer, embedded as a [Z] in the range
      [MinInt .. MaxInt]; no function of this file does arithmetic on one,
      so the range only appears as a hypothesis where a value is printed
      and parsed back.
    - A Go [map[string]string] is a [gmap string string]; indexing a
      missing key yields the empty string.
    - A Go result pair [(T, error)] is a pair [T * option error], [None]
      being [nil].
    - A run-time panic is the [Panic] outcome.

    The person-spec codec ([ParsePersonSpec], [PathComponent]) is known
    from its test only and is modelled from the specification. *)

From Stdlib Require Import ZArith Lia Ascii String.
From stdpp Require Import base option gmap strings list fin_maps.

Local Open Scope Z_scope.

(** ** Errors *)

Inductive numErr := ErrSyntax | ErrRange.

(** [NumError] is [*strconv.NumError]; [Errorf] is the value made by
    [fmt.Errorf] on a constant message; [Foreign] stands for an error
    made by a collaborator (HTTP transport, router, repo-spec codec). *)
Inductive error :=
| NumError (Func Num : string) (Err : numErr)
| Errorf (msg : string)
| Foreign (what : string).

Inductive panic := NilDereference | SliceBoundsOutOfRange.

Inductive outcome (A : Type) :=
| Returns (a : A)
| Panic (p : panic).
Arguments Returns {A} a.
Arguments Panic {A} p.

(** ** Go's [strconv], base 10 on a 64-bit platform *)

Module strconv.

Definition IntSize : Z := 64.
Definition maxUint64 : Z := 2 ^ 64 - 1.
Definition MaxInt : Z := 2 ^ 63 - 1.
Definition MinInt : Z := - 2 ^ 63.

Definition is_int (n : Z) : Prop := MinInt <= n <= MaxInt.

Definition byte_val (c : ascii) : Z := Z.of_N (N_of_ascii c).
Definition byte_of (z : Z) : ascii := ascii_of_N (Z.to_N (z mod 256)).

(** ['0' + d] as a byte. *)
Definition digit (d : Z) : ascii := byte_of (48 + d).

Definition isDigit (c : ascii) : bool :=
  (48 <=? byte_val c) && (byte_val c <=? 57).

(** [formatBits] for base 10: the digits of [u], most significant first,
    pushed in front of [acc].  The library fills a 65-byte buffer from its
    end (two digits per iteration); [fuel] bounds the number of digits, and
    20 digits are enough for any [uint64]. *)
Fixpoint formatBits (fuel : nat) (u : Z) (acc : string) : string :=
  match fuel with
  | O => acc
  | S fuel' =>
      if u <? 10 then String (digit u) acc
      else formatBits fuel' (u / 10) (String (digit (u mod 10)) acc)
  end.

(** [FormatInt(int64(i), 10)]: [u = uint64(i)], negated when [i < 0]. *)
Definition Itoa (i : Z) : string :=
  if i <? 0 then String "-" (formatBits 20 (- i) "")
  else formatBits 20 i "".

(** The loop of [ParseUint(s, 10, 64)].  [n] is the value read so far.
    A byte that is not a decimal digit (letters are digits of value 10 and
    more, refused by [d >= base]) is a syntax error with value 0; overflow
    is a range error with value [maxVal]. *)
Definition cutoff : Z := maxUint64 / 10 + 1.
Definition maxVal : Z := 2 ^ IntSize - 1.

Fixpoint parseUintLoop (n : Z) (s : string) : Z * option numErr :=
  match s with
  | EmptyString => (n, None)
  | String c s' =>
      if isDigit c then
        let d := byte_val c - 48 in
        if cutoff <=? n then (maxVal, Some ErrRange)
        else
          let n10 := (n * 10) mod 2 ^ 64 in
          let n1 := (n10 + d) mod 2 ^ 64 in
          if (n1 <? n10) || (maxVal <? n1) then (maxVal, Some ErrRange)
          else parseUintLoop n1 s'
      else (0, Some ErrSyntax)
  end.

Definition ParseUint (s : string) : Z * option numErr :=
  match s with
  | EmptyString => (0, Some ErrSyntax)
  | _ => parseUintLoop 0 s
  end.

(** The second half of [ParseInt(s, 10, 0)]: a syntax error of [ParseUint]
    is passed on with value 0; otherwise a value out of the [int] range
    (the [maxVal] of a range error of [ParseUint] always is) is clamped and
    reported as a range error. *)
Definition signedResult (neg : bool) (r : Z * option numErr) : Z * option numErr :=
  let '(un, err) := r in
  match err with
  | Some ErrSyntax => (0, Some ErrSyntax)
  | _ =>
      let cut := 2 ^ (IntSize - 1) in
      if negb neg && (cut <=? un) then (cut - 1, Some ErrRange)
      else if neg && (cut <? un) then (- cut, Some ErrRange)
      else (if neg then - un else un, None)
  end.

(** [ParseInt(s, 10, 0)]: an optional sign, then [ParseUint]. *)
Definition ParseInt (s : string) : Z * option numErr :=
  match s with
  | EmptyString => (0, Some ErrSyntax)
  | String c s' =>
      let neg := Ascii.eqb c "-" in
      let digits := if Ascii.eqb c "+" || neg then s' else s in
      signedResult neg (ParseUint digits)
  end.

(** [Atoi] is [ParseInt(s, 10, 0)] with the error's function name set to
    ["Atoi"] (the fast path of recent releases, for fewer than 19 bytes,
    computes the same results). *)
Definition Atoi (s : string) : Z * option error :=
  let '(n, err) := ParseInt s in
  (n, NumError "Atoi" s <$> err).

(** What a decimal numeral denotes, independently of the parsing loop: an
    optional sign, then one or more decimal digits, read as a number
    without any bound.  [validDecimalInt] says that the text is such a
    numeral and that an [int] holds its value. *)
Fixpoint digitsValue (acc : Z) (s : string) : option Z :=
  match s with
  | EmptyString => Some acc
  | String c s' =>
      if isDigit c then digitsValue (acc * 10 + (byte_val c - 48)) s' else None
  end.

Definition unsignedValue (s : string) : option Z :=
  match s with
  | EmptyString => None
  | _ => digitsValue 0 s
  end.

Definition decimalValue (s : string) : option Z :=
  match s with
  | EmptyString => None
  | String c s' =>
      if Ascii.eqb c "-" then Z.opp <$> unsignedValue s'
      else if Ascii.eqb c "+" then unsignedValue s'
      else unsignedValue s
  end.

Definition validDecimalInt (s : string) : Prop :=
  exists n, decimalValue s = Some n /\ is_int n.


End strconv.

(** ** Go's [strings], the functions the package calls *)

Module strings.

(** [cutPrefix s p] is [Some (s[len(p):])] when [s] starts with [p]. *)
Fixpoint cutPrefix (s p : string) : option string :=
  match p, s with
  | EmptyString, _ => Some s
  | String a p', String b s' => if Ascii.eqb a b then cutPrefix s' p' else None
  | String _ _, EmptyString => None
  end.

Definition HasPrefix (s p : string) : bool := bool_decide (is_Some (cutPrefix s p)).

Definition TrimPrefix (s p : string) : string := default s (cutPrefix s p).

Fixpoint Contains (s substr : string) : bool :=
  HasPrefix s substr ||
  match s with
  | EmptyString => false
  | String _ s' => Contains s' substr
  end.

(** [genSplit] for a non-empty separator: scan [s] from the left, cutting
    at each occurrence of [sep] that does not overlap the previous one.
    [cur] is the segment being read and [skip] the number of bytes of a
    separator still to be stepped over. *)
Fixpoint genSplit (sep : string) (skip : nat) (cur s : string) : list string :=
  match s with
  | EmptyString => [cur]
  | String c s' =>
      match skip with
      | S k => genSplit sep k cur s'
      | O =>
          if HasPrefix s sep
          then cur :: genSplit sep (String.length sep - 1) "" s'
          else genSplit sep 0 (cur +:+ String c "") s'
      end
  end.

(** [Split(s, sep)].  With an empty separator the library explodes [s]
    into its UTF-8 sequences; that case is given here for text made of
    one-byte characters only, and no call of the package reaches it. *)
Definition Split (s sep : string) : list string :=
  match sep with
  | EmptyString => (λ c, String c "") <$> list_ascii_of_string s
  | _ => genSplit sep 0 "" s
  end.

Fixpoint Join (elems : list string) (sep : string) : string :=
  match elems with
  | [] => ""
  | [a] => a
  | a :: rest => a +:+ sep +:+ Join rest sep
  end.

End strings.

(** A text without the byte [c], and the number of occurrences of [c] in
    a text: what the statements about URLs are phrased with. *)
Definition free_of (c : ascii) (s : string) : Prop :=
  strings.Contains s (String c "") = false.

Fixpoint count_byte (c : ascii) (s : string) : nat :=
  match s with
  | EmptyString => 0%nat
  | String b s' => ((if Ascii.eqb c b then 1 else 0) + count_byte c s')%nat
  end.

(** ** github types embedded by the package (the fields it reads) *)

Module github.

Record PullRequest := { Number : option Z; HTMLURL : option string }.

Record PullRequestComment := { ID : option Z; Body : option string }.

End github.

(** ** [sourcegraph/pulls.go] *)

(** Modelled from the spec: the declaration of [RepoSpec] is not in the
    sources at hand; the spec describes it as an opaque identifier holding
    a URI string, and [pulls.go] reads and writes its [URI] field only. *)
Record RepoSpec := { URI : string }.

Record PullRequestSpec := {
  Repo : RepoSpec;  (* the base repository of the pull request *)
  Number : Z        (* sequence number of the pull request *)
}.

Record PullRequestCommentSpec := { Pull : PullRequestSpec; Comment : Z }.

Definition zeroRepoSpec : RepoSpec := {| URI := "" |}.
Definition zeroPullRequestSpec : PullRequestSpec :=
  {| Repo := zeroRepoSpec; Number := 0 |}.
Definition zeroPullRequestCommentSpec : PullRequestCommentSpec :=
  {| Pull := zeroPullRequestSpec; Comment := 0 |}.

(** [v[k]] on a Go map: the zero value when the key is absent. *)
Definition index (v : gmap string string) (k : string) : string :=
  default ""%string (v !! k).

(** [(PullRequestSpec).RouteVars]. *)
Definition RouteVars (s : PullRequestSpec) : gmap string string :=
  <[ "Pull"%string := strconv.Itoa (Number s) ]>
    (<[ "RepoSpec"%string := URI (Repo s) ]> ∅).

(** [(PullRequestCommentSpec).RouteVars]: the map made by the pull spec,
    with one more entry stored into it. *)
Definition CommentRouteVars (c : PullRequestCommentSpec) : gmap string string :=
  let rv := RouteVars (Pull c) in
  <[ "CommentID"%string := strconv.Itoa (Comment c) ]> rv.

Section Unmarshal.

(** The repo-spec codec is a collaborator. *)
Variable UnmarshalRepoSpec : gmap string string -> RepoSpec * option error.

Definition UnmarshalPullRequestSpec (v : gmap string string)
  : PullRequestSpec * option error :=
  let ps := zeroPullRequestSpec in
  let '(repo, err) := UnmarshalRepoSpec v in
  let ps := {| Repo := repo; Number := Number ps |} in
  match err with
  | Some e => (ps, Some e)
  | None =>
      let '(n, err) := strconv.Atoi (index v "Pull") in
      ({| Repo := Repo ps; Number := n |}, err)
  end.

(** The results are named: a bare [return] hands back [spec] as it stands,
    which is the zero value until both fields are stored. *)
Definition UnmarshalPullRequestCommentSpec (v : gmap string string)
  : PullRequestCommentSpec * option error :=
  let spec := zeroPullRequestCommentSpec in
  let '(pull, err) := UnmarshalPullRequestSpec v in
  match err with
  | Some e => (spec, Some e)
  | None =>
      let '(commentID, err) := strconv.Atoi (index v "CommentID") in
      match err with
      | Some e => (spec, Some e)
      | None => ({| Pull := pull; Comment := commentID |}, None)
      end
  end.

End Unmarshal.

(** A sample collaborator, for concrete runs: it reads the URI under the
    key [RepoSpec] and refuses an absent or empty one. *)
Definition sampleUnmarshalRepoSpec (v : gmap string string) : RepoSpec * option error :=
  match index v "RepoSpec" with
  | EmptyString => (zeroRepoSpec, Some (Foreign "empty repo spec"))
  | uri => ({| URI := uri |}, None)
  end.

(** The collaborator's contract for one repo: it recovers [r] from every
    map that holds [r]'s URI under the key [RepoSpec]. *)
Definition recovers (UnmarshalRepoSpec : gmap string string -> RepoSpec * option error)
    (r : RepoSpec) : Prop :=
  forall v, v !! "RepoSpec"%string = Some (URI r) -> UnmarshalRepoSpec v = (r, None).

(** [s[0:3]] on a slice whose capacity equals its length, as the one
    [Split] returns. *)
Definition slice_0_3 {A} (s : list A) : outcome (list A) :=
  if decide (3 <= length s)%nat then Returns (take 3 s)
  else Panic SliceBoundsOutOfRange.

(** Reading through a pointer. *)
Definition deref {A} (p : option A) : outcome A :=
  match p with
  | Some a => Returns a
  | None => Panic NilDereference
  end.

Definition obind {A B} (o : outcome A) (k : A -> outcome B) : outcome B :=
  match o with
  | Returns a => k a
  | Panic p => Panic p
  end.

Notation "x <-! o ; k" := (obind o (fun x => k))
  (at level 20, o at level 99, k at level 200, right associativity).

Definition PullRequest := github.PullRequest.

(** The method [Spec] of a pull request, for a non-nil receiver. *)
Definition Spec (r : PullRequest) : outcome PullRequestSpec :=
  url <-! deref (github.HTMLURL r);
  parts <-! slice_0_3 (strings.Split (strings.TrimPrefix url "https://") "/");
  let uri := strings.Join parts "/" in
  number <-! deref (github.Number r);
  Returns {| Repo := {| URI := uri |}; Number := number |}.


(** ** The pull-request service: [EditComment] *)

Record PullRequestComment := {
  Published : bool;
  comment : github.PullRequestComment  (* the embedded struct *)
}.

(** The named routes of the router package that [pulls.go] uses. *)
Inductive route :=
| RepoPullRequest
| RepoPullRequests
| RepoPullRequestComments
| RepoPullRequestCommentsCreate
| RepoPullRequestCommentsEdit
| RepoPullRequestCommentsDelete.

Section Service.

(** The client is a collaborator: its URL builder, its request constructor
    and its transport are taken as given; what they answer is theirs.  The
    options argument of [url] is left out: [EditComment] passes nil. *)
Variables URL Request Response : Type.
Variable URL_String : URL -> string.
Variable client_url : route -> gmap string string -> URL * option error.
Variable client_NewRequest :
  string -> string -> option PullRequestComment -> Request * option error.
Variable client_Do : Request -> PullRequestComment * option Response * option error.

(** What the service asks of its client, in order. *)
Inductive event :=
| UrlBuilt (r : route) (vars : gmap string string)
| RequestConstructed (method urlStr : string) (body : option PullRequestComment)
| RequestSent (req : Request).

(** A computation that calls the client: it extends the log of calls. *)
Definition M (A : Type) : Type := list event -> A * list event.

Definition ret {A} (a : A) : M A := fun log => (a, log).

Definition bind {A B} (m : M A) (k : A -> M B) : M B :=
  fun log => let '(a, log') := m log in k a log'.

Definition emit (e : event) : M unit := fun log => (tt, log ++ [e]).

Notation "x <-- m ;; k" := (bind m (fun x => k))
  (at level 20, m at level 99, k at level 200, right associativity).

Definition call_url (r : route) (vars : gmap string string) : M (URL * option error) :=
  u <-- emit (UrlBuilt r vars) ;; ret (client_url r vars).

Definition call_NewRequest (method urlStr : string) (body : option PullRequestComment)
  : M (Request * option error) :=
  u <-- emit (RequestConstructed method urlStr body) ;;
  ret (client_NewRequest method urlStr body).

Definition call_Do (req : Request)
  : M (PullRequestComment * option Response * option error) :=
  u <-- emit (RequestSent req) ;; ret (client_Do req).

Definition result : Type :=
  option PullRequestComment * option Response * option error.

(** [EditComment], for a non-nil [comment]. *)
Definition EditComment (pull : PullRequestSpec) (c : PullRequestComment) : M result :=
  match github.ID (comment c) with
  | None => ret (None, None, Some (Errorf "comment ID not specified"))
  | Some id =>
      r <-- call_url RepoPullRequestCommentsEdit
              (CommentRouteVars {| Pull := pull; Comment := id |}) ;;
      let '(url, err) := r in
      match err with
      | Some e => ret (None, None, Some e)
      | None =>
          r <-- call_NewRequest "PATCH" (URL_String url) (Some c) ;;
          let '(req, err) := r in
          match err with
          | Some e => ret (None, None, Some e)
          | None =>
              r <-- call_Do req ;;
              let '(updatedComment, resp, err) := r in
              match err with
              | Some e => ret (None, None, Some e)
              | None => ret (Some updatedComment, resp, None)
              end
          end
      end
  end.

End Service.

Arguments UrlBuilt {Request} r vars.
Arguments RequestConstructed {Request} method urlStr body.
Arguments RequestSent {Request} req.

(** ** Person specs *)

Record PersonSpec := { Login : string; Email : string; UID : Z }.

Inductive codecError := InvalidFormat.

(** Modelled from the spec: [ParsePersonSpec] is not in the sources at hand
    (only its test is).  Grammar, checked in order: a text that begins with
    [$] must have a remainder that parses as a non-negative integer, which
    becomes [UID]; else a text that contains [@] is the [Email]; else the
    text is the [Login].  The remainder is read with [strconv.Atoi], as the
    numeric route variables of the package are. *)
Definition ParsePersonSpec (text : string) : PersonSpec + codecError :=
  match strings.cutPrefix text "$" with
  | Some rest =>
      match strconv.Atoi rest with
      | (uid, None) =>
          if 0 <=? uid then inl {| Login := ""; Email := ""; UID := uid |}
          else inr InvalidFormat
      | (_, Some _) => inr InvalidFormat
      end
  | None =>
      if strings.Contains text "@"
      then inl {| Login := ""; Email := text; UID := 0 |}
      else inl {| Login := text; Email := ""; UID := 0 |}
  end.

(** A field is populated when it differs from its zero value; for [UID]
    the spec's invariant reads [UID > 0]. *)
Definition populated (s : PersonSpec) : list bool :=
  [negb (String.eqb (Login s) ""); negb (String.eqb (Email s) ""); 0 <? UID s].

Definition count_populated (s : PersonSpec) : nat :=
  length (filter (λ b, b = true) (populated s)).

(** Modelled from the spec: [PathComponent] (the spec's Format) is not in
    the sources at hand.  A UID-populated spec gives [$] and the decimal
    digits, an Email-populated one the email, a Login-populated one the
    login; a spec with no field or several fields populated is outside the
    operation's precondition, which is [None] here. *)
Definition PathComponent (s : PersonSpec) : option string :=
  if decide (count_populated s = 1%nat) then
    if 0 <? UID s then Some (String "$" (strconv.Itoa (UID s)))
    else if negb (String.eqb (Email s) "") then Some (Email s)
    else Some (Login s)
  else None.

(** The table of [TestPersonSpec] and its loop: one message per failed
    check, none when the test passes. *)
Definition tests : list (string * PersonSpec) :=
  [ ("a"%string, {| Login := "a"; Email := ""; UID := 0 |});
    ("a@a.com"%string, {| Login := ""; Email := "a@a.com"; UID := 0 |});
    ("$1"%string, {| Login := ""; Email := ""; UID := 1 |}) ].

Inductive testFailure :=
| ParseFailed (str : string)
| GotSpec (str : string) (got want : PersonSpec)
| GotStr (spec : PersonSpec) (got : option string) (want : string).

Definition PersonSpec_eqb (a b : PersonSpec) : bool :=
  String.eqb (Login a) (Login b) && String.eqb (Email a) (Email b)
  && (UID a =? UID b).

Definition TestPersonSpec : list testFailure :=
  flat_map (λ '(str, want),
    match ParsePersonSpec str with
    | inr _ => [ParseFailed str]
    | inl spec =>
        if negb (PersonSpec_eqb spec want) then [GotSpec str spec want]
        else
          match PathComponent want with
          | Some s => if String.eqb s str then [] else [GotStr want (Some s) str]
          | None => [GotStr want None str]
          end
    end) tests.

(** ** The other methods of the pull-request service *)

(** The option structs of the service.  [ListOptions] is declared in a
    file of the package that is not at hand and is taken as a parameter. *)
Inductive PullRequestGetOptions := mkPullRequestGetOptions.

Record PullRequestListOptions (ListOptions : Type) := {
  State : string;  (* "open", "closed", or "all" *)
  PullRequestList_ListOptions : ListOptions
}.

Record PullRequestListCommentsOptions (ListOptions : Type) := {
  PullRequestListComments_ListOptions : ListOptions
}.

(** The value handed to the URL builder as its options: the untyped nil,
    or a pointer (nil or not) to one of the option structs. *)
Inductive urlOptions (ListOptions : Type) :=
| NilOptions
| GetOptions (opt : option PullRequestGetOptions)
| ListOptionsOf (opt : option (PullRequestListOptions ListOptions))
| ListCommentsOptionsOf (opt : option (PullRequestListCommentsOptions ListOptions)).
Arguments NilOptions {ListOptions}.
Arguments GetOptions {ListOptions} opt.
Arguments ListOptionsOf {ListOptions} opt.
Arguments ListCommentsOptionsOf {ListOptions} opt.

Definition zeroPullRequestComment : PullRequestComment :=
  {| Published := false; comment := {| github.ID := None; github.Body := None |} |}.

Section Services.

(** The client, as for [EditComment], now with the options argument of its
    URL builder and with a transport that decodes into the target it is
    given: [client_Do T req v] answers with the target's content after the
    call, [v] being its content before; [T = unit] stands for a nil
    target.  The route variables of a repo spec are the repo codec's. *)
Variables URL Request Response ListOptions : Type.
Variable URL_String : URL -> string.
Variable client_url :
  route -> gmap string string -> urlOptions ListOptions -> URL * option error.
Variable client_NewRequest :
  string -> string -> option PullRequestComment -> Request * option error.
Variable client_Do : forall T : Type, Request -> T -> T * option Response * option error.
Variable RepoSpec_RouteVars : RepoSpec -> gmap string string.

Local Notation "x <-- m ;; k" := (bind Request m (fun x => k))
  (at level 20, m at level 99, k at level 200, right associativity).

Definition url_with (opt : urlOptions ListOptions) (r : route) (vars : gmap string string)
  : M Request (URL * option error) :=
  call_url URL Request (fun r vars => client_url r vars opt) r vars.

Definition Do_into {T : Type} (req : Request) (v : T)
  : M Request (T * option Response * option error) :=
  u <-- emit Request (RequestSent req) ;; ret Request (client_Do T req v).

Definition Get (pull : PullRequestSpec) (opt : option PullRequestGetOptions)
  : M Request (option PullRequest * option Response * option error) :=
  r <-- url_with (GetOptions opt) RepoPullRequest (RouteVars pull) ;;
  let '(url, err) := r in
  match err with
  | Some e => ret Request (None, None, Some e)
  | None =>
      r <-- call_NewRequest Request client_NewRequest "GET" (URL_String url) None ;;
      let '(req, err) := r in
      match err with
      | Some e => ret Request (None, None, Some e)
      | None =>
          r <-- Do_into req (None : option PullRequest) ;;
          let '(pull_, resp, err) := r in
          match err with
          | Some e => ret Request (None, resp, Some e)
          | None => ret Request (pull_, resp, None)
          end
      end
  end.

Definition ListByRepo (repo : RepoSpec)
    (opt : option (PullRequestListOptions ListOptions))
  : M Request (list (option PullRequest) * option Response * option error) :=
  r <-- url_with (ListOptionsOf opt) RepoPullRequests (RepoSpec_RouteVars repo) ;;
  let '(url, err) := r in
  match err with
  | Some e => ret Request ([], None, Some e)
  | None =>
      r <-- call_NewRequest Request client_NewRequest "GET" (URL_String url) None ;;
      let '(req, err) := r in
      match err with
      | Some e => ret Request ([], None, Some e)
      | None =>
          r <-- Do_into req ([] : list (option PullRequest)) ;;
          let '(pulls, resp, err) := r in
          match err with
          | Some e => ret Request ([], resp, Some e)
          | None => ret Request (pulls, resp, None)
          end
      end
  end.

Definition ListComments (pull : PullRequestSpec)
    (opt : option (PullRequestListCommentsOptions ListOptions))
  : M Request (list (option PullRequestComment) * option Response * option error) :=
  r <-- url_with (ListCommentsOptionsOf opt) RepoPullRequestComments (RouteVars pull) ;;
  let '(url, err) := r in
  match err with
  | Some e => ret Request ([], None, Some e)
  | None =>
      r <-- call_NewRequest Request client_NewRequest "GET" (URL_String url) None ;;
      let '(req, err) := r in
      match err with
      | Some e => ret Request ([], None, Some e)
      | None =>
          r <-- Do_into req ([] : list (option PullRequestComment)) ;;
          let '(comments, resp, err) := r in
          match err with
          | Some e => ret Request ([], resp, Some e)
          | None => ret Request (comments, resp, None)
          end
      end
  end.

(** [CreateComment], for a non-nil [comment]. *)
Definition CreateComment (pull : PullRequestSpec) (c : PullRequestComment)
  : M Request (option PullRequestComment * option Response * option error) :=
  r <-- url_with NilOptions RepoPullRequestCommentsCreate (RouteVars pull) ;;
  let '(url, err) := r in
  match err with
  | Some e => ret Request (None, None, Some e)
  | None =>
      r <-- call_NewRequest Request client_NewRequest "POST" (URL_String url) (Some c) ;;
      let '(req, err) := r in
      match err with
      | Some e => ret Request (None, None, Some e)
      | None =>
          r <-- Do_into req zeroPullRequestComment ;;
          let '(createdComment, resp, err) := r in
          match err with
          | Some e => ret Request (None, None, Some e)
          | None => ret Request (Some createdComment, resp, None)
          end
      end
  end.

Definition DeleteComment (pull : PullRequestSpec) (commentID : Z)
  : M Request (option Response * option error) :=
  r <-- url_with NilOptions RepoPullRequestCommentsDelete
          (CommentRouteVars {| Pull := pull; Comment := commentID |}) ;;
  let '(url, err) := r in
  match err with
  | Some e => ret Request (None, Some e)
  | None =>
      r <-- call_NewRequest Request client_NewRequest "DELETE" (URL_String url) None ;;
      let '(req, err) := r in
      match err with
      | Some e => ret Request (None, Some e)
      | None =>
          r <-- Do_into req tt ;;
          let '(_, resp, err) := r in
          match err with
          | Some e => ret Request (None, Some e)
          | None => ret Request (resp, None)
          end
      end
  end.

(** [EditComment] on this client: no options, and a zero-valued comment as
    the transport's target. *)
Definition EditComment_on (pull : PullRequestSpec) (c : PullRequestComment)
  : M Request (option PullRequestComment * option Response * option error) :=
  EditComment URL Request Response URL_String
    (fun r vars => client_url r vars NilOptions) client_NewRequest
    (fun req => client_Do PullRequestComment req zeroPullRequestComment) pull c.

End Services.

(** A sample client, for concrete runs: URLs and requests are texts, a
    response is a status code, and each of the three facilities either
    answers or fails, as asked. *)
Definition sample_url (ok : bool) (r : route) (vars : gmap string string)
    (opt : urlOptions unit) : string * option error :=
  if ok then ("/repos/" +:+ index vars "RepoSpec" +:+ "/pulls/" +:+ index vars "Pull", None)
  else (""%string, Some (Foreign "no such route")).

Definition sample_NewRequest (ok : bool) (method urlStr : string)
    (body : option PullRequestComment) : string * option error :=
  if ok then (method +:+ " " +:+ urlStr, None)
  else (""%string, Some (Foreign "malformed URL")).

Definition sample_Do (ok : bool) (T : Type) (req : string) (v : T)
  : T * option Z * option error :=
  if ok then (v, Some 200, None) else (v, Some 502, Some (Foreign "bad gateway")).

Definition sample_RepoSpec_RouteVars (r : RepoSpec) : gmap string string :=
  {[ "RepoSpec"%string := URI r ]}.

(** * Properties *)

(** ** Sample runs *)

Example Itoa_5 : strconv.Itoa 5 = "5"%string.
Proof. reflexivity. Qed.

Example Itoa_neg : strconv.Itoa (-1204) = "-1204"%string.
Proof. reflexivity. Qed.

Example Itoa_min : strconv.Itoa strconv.MinInt = "-9223372036854775808"%string.
Proof. reflexivity. Qed.

Example Atoi_17 : strconv.Atoi "17" = (17, None).
Proof. reflexivity. Qed.

Example Atoi_plus : strconv.Atoi "+017" = (17, None).
Proof. reflexivity. Qed.

Example Atoi_empty : strconv.Atoi "" = (0, Some (NumError "Atoi" "" ErrSyntax)).
Proof. reflexivity. Qed.

Example Atoi_x : strconv.Atoi "x" = (0, Some (NumError "Atoi" "x" ErrSyntax)).
Proof. reflexivity. Qed.

Example Atoi_max1 :
  strconv.Atoi "9223372036854775808"
  = (strconv.MaxInt, Some (NumError "Atoi" "9223372036854775808" ErrRange)).
Proof. reflexivity. Qed.

Example Atoi_min : strconv.Atoi "-9223372036854775808" = (strconv.MinInt, None).
Proof. reflexivity. Qed.

Example Atoi_huge :
  fst (strconv.Atoi "99999999999999999999999") = strconv.MaxInt.
Proof. reflexivity. Qed.

Example Split_url :
  strings.Split "github.com/a/b/pull/5" "/" = ["github.com"; "a"; "b"; "pull"; "5"]%string.
Proof. reflexivity. Qed.

Example Split_none : strings.Split "abc" "/" = ["abc"%string].
Proof. reflexivity. Qed.

Example Split_empty : strings.Split "" "/" = [""%string].
Proof. reflexivity. Qed.

Example Split_edges : strings.Split "/a//" "/" = [""; "a"; ""; ""]%string.
Proof. reflexivity. Qed.

Example Split_long_sep : strings.Split "a--b---c" "--" = ["a"; "b"; "-c"]%string.
Proof. reflexivity. Qed.

Example TrimPrefix_https :
  strings.TrimPrefix "https://github.com/a/b" "https://" = "github.com/a/b"%string.
Proof. reflexivity. Qed.

Example TrimPrefix_absent :
  strings.TrimPrefix "http://github.com/a/b" "https://" = "http://github.com/a/b"%string.
Proof. reflexivity. Qed.

Example Join_three : strings.Join ["github.com"; "a"; "b"]%string "/" = "github.com/a/b"%string.
Proof. reflexivity. Qed.

Example Spec_github :
  Spec {| github.Number := Some 5;
          github.HTMLURL := Some "https://github.com/a/b/pull/5"%string |}
  = Returns {| Repo := {| URI := "github.com/a/b" |}; Number := 5 |}.
Proof. reflexivity. Qed.

Example Spec_short :
  Spec {| github.Number := Some 5; github.HTMLURL := Some "https://github.com/a"%string |}
  = Panic SliceBoundsOutOfRange.
Proof. reflexivity. Qed.

(** ** Facts about the [strconv] model *)

Section strconv_facts.
Import strconv.

Lemma byte_val_digit d : 0 <= d < 10 -> byte_val (digit d) = 48 + d.
Proof.
  intros Hd. unfold byte_val, digit, byte_of.
  rewrite Z.mod_small by lia.
  rewrite N_ascii_embedding by lia. lia.
Qed.

Lemma isDigit_digit d : 0 <= d < 10 -> isDigit (digit d) = true.
Proof.
  intros Hd. unfold isDigit. rewrite byte_val_digit by done.
  apply andb_true_intro; split; lia.
Qed.

Lemma isDigit_range c : isDigit c = true -> 0 <= byte_val c - 48 < 10.
Proof. unfold isDigit. intros [H1 H2]%andb_prop. lia. Qed.


(** One iteration of the parsing loop, when nothing overflows. *)
Lemma parseUintLoop_digit n c s :
  isDigit c = true -> 0 <= n -> n * 10 + (byte_val c - 48) <= maxUint64 ->
  parseUintLoop n (String c s) = parseUintLoop (n * 10 + (byte_val c - 48)) s.
Proof.
  intros Hc Hn Hle. pose proof (isDigit_range c Hc) as Hr.
  assert (H64 : 2 ^ 64 = maxUint64 + 1) by reflexivity.
  cbn [parseUintLoop]. rewrite Hc. cbv zeta.
  assert (Hcut : (cutoff <=? n) = false).
  { apply Z.leb_gt. unfold cutoff. 
    assert (n * 10 <= maxUint64) by lia.
    assert (n <= maxUint64 / 10) by (apply Z.div_le_lower_bound; lia). lia. }
  rewrite Hcut.
  rewrite (Z.mod_small (n * 10)) by lia.
  rewrite (Z.mod_small (n * 10 + _)) by lia.
  replace (n * 10 + (byte_val c - 48) <? n * 10) with false
    by (symmetry; apply Z.ltb_ge; lia).
  replace (maxVal <? n * 10 + (byte_val c - 48)) with false
    by (symmetry; apply Z.ltb_ge; unfold maxVal, IntSize; lia).
  reflexivity.
Qed.


(** Parsing what [formatBits] printed gives the number back. *)
Lemma parseUintLoop_formatBits fuel : forall u acc,
  0 <= u <= maxUint64 -> u < 10 ^ Z.of_nat fuel ->
  parseUintLoop 0 (formatBits fuel u acc) = parseUintLoop u acc.
Proof.
  assert (Hmax : maxUint64 = 18446744073709551615) by reflexivity.
  induction fuel as [|fuel IH]; intros u acc Hu Hlt.
  - cbn in Hlt. assert (u = 0) as -> by lia. reflexivity.
  - cbn [formatBits]. destruct (u <? 10) eqn:Hsmall.
    + apply Z.ltb_lt in Hsmall.
      rewrite parseUintLoop_digit.
      * rewrite byte_val_digit by lia. f_equal. lia.
      * apply isDigit_digit. lia.
      * lia.
      * rewrite byte_val_digit by lia. lia.
    + apply Z.ltb_ge in Hsmall.
      pose proof (Z.div_mod u 10 ltac:(lia)) as Hdm.
      pose proof (Z.mod_pos_bound u 10 ltac:(lia)) as Hmod.
      assert (Hq : 0 <= u / 10) by (apply Z.div_pos; lia).
      rewrite IH.
      * rewrite parseUintLoop_digit.
        -- rewrite byte_val_digit by lia. f_equal. lia.
        -- apply isDigit_digit. lia.
        -- lia.
        -- rewrite byte_val_digit by lia. lia.
      * lia.
      * apply Z.div_lt_upper_bound; [lia|].
        rewrite Nat2Z.inj_succ, Z.pow_succ_r in Hlt by lia. lia.
Qed.

Lemma formatBits_head fuel : forall u acc,
  0 <= u -> (0 < fuel)%nat ->
  exists c rest, formatBits fuel u acc = String c rest /\ isDigit c = true.
Proof.
  induction fuel as [|fuel IH]; intros u acc Hu Hf; [lia|].
  cbn [formatBits]. destruct (u <? 10) eqn:Hsmall.
  - apply Z.ltb_lt in Hsmall. eexists _, _. split; [done|].
    apply isDigit_digit. lia.
  - apply Z.ltb_ge in Hsmall. destruct fuel as [|fuel].
    + cbn [formatBits]. eexists _, _. split; [done|].
      apply isDigit_digit, Z.mod_pos_bound. lia.
    + apply IH; [|lia]. apply Z.div_pos; lia.
Qed.

Lemma isDigit_not_sign c :
  isDigit c = true -> Ascii.eqb c "+" = false /\ Ascii.eqb c "-" = false.
Proof.
  intros Hc. split; apply Ascii.eqb_neq; intros ->; discriminate.
Qed.

Lemma ParseUint_formatBits u :
  0 <= u <= maxUint64 -> ParseUint (formatBits 20 u "") = (u, None).
Proof.
  intros Hu.
  destruct (formatBits_head 20 u "" ltac:(lia) ltac:(lia)) as (c & rest & E & _).
  unfold ParseUint. rewrite E, <- E.
  rewrite parseUintLoop_formatBits; [done|done|].
  unfold maxUint64 in Hu. lia.
Qed.

(** [Atoi] is a left inverse of [Itoa] on every [int]. *)
Lemma Atoi_Itoa n : is_int n -> Atoi (Itoa n) = (n, None).
Proof.
  unfold is_int, MinInt, MaxInt. intros Hn.
  unfold Atoi, Itoa. destruct (n <? 0) eqn:Hneg.
  - apply Z.ltb_lt in Hneg.
    unfold ParseInt. cbn [Ascii.eqb Bool.eqb orb negb andb].
    rewrite ParseUint_formatBits by (unfold maxUint64; lia).
    unfold signedResult, IntSize. cbn [negb andb].
    replace (2 ^ (64 - 1) <? - n) with false
      by (symmetry; apply Z.ltb_ge; lia).
    cbn [fmap option_fmap option_map]. f_equal. lia.
  - apply Z.ltb_ge in Hneg.
    destruct (formatBits_head 20 n "" ltac:(lia) ltac:(lia)) as (c & rest & E & Hc).
    destruct (isDigit_not_sign c Hc) as [Hp Hm].
    unfold ParseInt. rewrite E, Hp, Hm. cbn [orb negb andb]. rewrite <- E.
    rewrite ParseUint_formatBits by (unfold maxUint64; lia).
    unfold signedResult, IntSize. cbn [negb andb].
    replace (2 ^ (64 - 1) <=? n) with false
      by (symmetry; apply Z.leb_gt; lia).
    reflexivity.
Qed.

End strconv_facts.


(** ** [Atoi] against the value of a decimal numeral *)

Section strconv_refinement.
Import strconv.

Lemma digitsValue_ge s : forall n v,
  0 <= n -> digitsValue n s = Some v -> n <= v.
Proof.
  induction s as [|c s IH]; intros n v Hn H; cbn [digitsValue] in H.
  - inversion H. lia.
  - destruct (isDigit c) eqn:Hc; [|discriminate].
    pose proof (isDigit_range c Hc).
    apply IH in H; lia.
Qed.

(** The iteration that overflows reports a range error. *)
Lemma parseUintLoop_overflow n c s :
  isDigit c = true -> 0 <= n <= maxUint64 ->
  maxUint64 < n * 10 + (byte_val c - 48) ->
  parseUintLoop n (String c s) = (maxVal, Some ErrRange).
Proof.
  intros Hc Hn Hov. pose proof (isDigit_range c Hc) as Hr.
  assert (Hmax : maxUint64 = 18446744073709551615) by reflexivity.
  assert (H64 : 2 ^ 64 = 18446744073709551616) by reflexivity.
  cbn [parseUintLoop]. rewrite Hc. cbv zeta.
  destruct (cutoff <=? n) eqn:Hcut; [done|].
  apply Z.leb_gt in Hcut.
  assert (Hn10 : n * 10 <= maxUint64).
  { change cutoff with 1844674407370955162 in Hcut. lia. }
  rewrite (Z.mod_small (n * 10)) by lia.
  assert (Hm : (n * 10 + (byte_val c - 48)) mod 2 ^ 64
               = n * 10 + (byte_val c - 48) - 2 ^ 64).
  { symmetry. apply (Z.mod_unique_pos _ _ 1); lia. }
  rewrite Hm.
  replace (n * 10 + (byte_val c - 48) - 2 ^ 64 <? n * 10) with true
    by (symmetry; apply Z.ltb_lt; lia).
  reflexivity.
Qed.

Lemma parseUintLoop_spec s : forall n v,
  0 <= n <= maxUint64 -> digitsValue n s = Some v ->
  parseUintLoop n s
  = if v <=? maxUint64 then (v, None) else (maxVal, Some ErrRange).
Proof.
  induction s as [|c s IH]; intros n v Hn H; cbn [digitsValue] in H.
  - inversion H; subst v. cbn [parseUintLoop].
    replace (n <=? maxUint64) with true by (symmetry; apply Z.leb_le; lia).
    reflexivity.
  - destruct (isDigit c) eqn:Hc; [|discriminate].
    pose proof (isDigit_range c Hc) as Hr.
    destruct (Z_le_gt_dec (n * 10 + (byte_val c - 48)) maxUint64) as [Hfit|Hov].
    + rewrite parseUintLoop_digit; [|done|lia|done].
      apply IH; [lia|done].
    + rewrite parseUintLoop_overflow; [|done|lia|lia].
      apply digitsValue_ge in H; [|lia].
      replace (v <=? maxUint64) with false by (symmetry; apply Z.leb_gt; lia).
      reflexivity.
Qed.

(** Whether a text is made of digits does not depend on the value read
    before it. *)
Lemma digitsValue_None s : forall n m,
  digitsValue n s = None -> digitsValue m s = None.
Proof.
  induction s as [|c s IH]; intros n m H; cbn [digitsValue] in *; [discriminate|].
  destruct (isDigit c); [|done]. eapply IH, H.
Qed.

Lemma parseUintLoop_not_digits s : forall n,
  digitsValue n s = None -> snd (parseUintLoop n s) <> None.
Proof.
  induction s as [|c s IH]; intros n H; cbn [digitsValue] in H; [discriminate|].
  cbn [parseUintLoop]. destruct (isDigit c); [|done].
  cbv zeta. destruct (cutoff <=? n); [done|].
  destruct (_ || _); [done|]. eapply IH, digitsValue_None, H.
Qed.

Lemma ParseUint_spec s v :
  unsignedValue s = Some v ->
  ParseUint s = if v <=? maxUint64 then (v, None) else (maxVal, Some ErrRange).
Proof.
  destruct s as [|c s]; [discriminate|]. cbn [unsignedValue ParseUint].
  apply parseUintLoop_spec. unfold maxUint64. lia.
Qed.

Lemma ParseUint_not_digits s :
  unsignedValue s = None -> snd (ParseUint s) <> None.
Proof.
  destruct s as [|c s]; [done|]. cbn [unsignedValue ParseUint].
  apply parseUintLoop_not_digits.
Qed.

Lemma unsignedValue_nonneg s v : unsignedValue s = Some v -> 0 <= v.
Proof.
  destruct s as [|c s]; [discriminate|]. cbn [unsignedValue].
  apply digitsValue_ge. lia.
Qed.

End strconv_refinement.

Section Atoi_refinement.
Import strconv.

Lemma parseUintLoop_range s : forall n v,
  parseUintLoop n s = (v, Some ErrRange) -> v = maxVal.
Proof.
  induction s as [|c s IH]; intros n v H; cbn [parseUintLoop] in H; [discriminate|].
  destruct (isDigit c); [|discriminate]. cbv zeta in H.
  destruct (cutoff <=? n); [by inversion H|].
  destruct (_ || _); [by inversion H|]. eapply IH, H.
Qed.

Lemma ParseUint_range s v : ParseUint s = (v, Some ErrRange) -> v = maxVal.
Proof.
  destruct s as [|c s]; [discriminate|]. apply parseUintLoop_range.
Qed.

(** The sign and range step succeeds exactly on the digit strings whose
    signed value an [int] holds. *)
Lemma signedResult_ok_iff neg digits n :
  signedResult neg (ParseUint digits) = (n, None) <->
  exists v, unsignedValue digits = Some v /\ n = (if neg then - v else v) /\ is_int n.
Proof.
  assert (Hmax : maxUint64 = 18446744073709551615) by reflexivity.
  assert (Hcut : 2 ^ (IntSize - 1) = 9223372036854775808) by reflexivity.
  assert (HmaxVal : maxVal = 18446744073709551615) by reflexivity.
  unfold is_int, MinInt, MaxInt.
  assert (H63 : 2 ^ 63 = 9223372036854775808) by reflexivity.
  destruct (unsignedValue digits) as [v|] eqn:E.
  - pose proof (unsignedValue_nonneg _ _ E) as Hv.
    rewrite (ParseUint_spec _ _ E).
    destruct (v <=? maxUint64) eqn:Hfit; unfold signedResult; rewrite Hcut.
    + apply Z.leb_le in Hfit.
      destruct neg; cbn [negb andb].
      * destruct (9223372036854775808 <? v) eqn:Hc;
          [apply Z.ltb_lt in Hc | apply Z.ltb_ge in Hc].
        -- split; [discriminate|]. intros (v' & [= <-] & -> & Hi). lia.
        -- split.
           ++ intros [= <-]. exists v. repeat split; lia.
           ++ intros (v' & [= <-] & -> & Hi). reflexivity.
      * destruct (9223372036854775808 <=? v) eqn:Hc;
          [apply Z.leb_le in Hc | apply Z.leb_gt in Hc].
        -- split; [discriminate|]. intros (v' & [= <-] & -> & Hi). lia.
        -- split.
           ++ intros [= <-]. exists v. repeat split; lia.
           ++ intros (v' & [= <-] & -> & Hi). reflexivity.
    + apply Z.leb_gt in Hfit. rewrite HmaxVal.
      destruct neg; cbn [negb andb];
        (split; [discriminate|]; intros (v' & [= <-] & -> & Hi); lia).
  - pose proof (ParseUint_not_digits _ E) as Herr.
    split; [|by intros (v & [=] & _)].
    destruct (ParseUint digits) as [un [[]|]] eqn:EP; cbn [snd] in Herr; [| |done].
    + discriminate.
    + apply ParseUint_range in EP. subst un.
      unfold signedResult. rewrite Hcut, HmaxVal.
      destruct neg; discriminate.
Qed.

Lemma ParseInt_ok_iff s n :
  ParseInt s = (n, None) <-> decimalValue s = Some n /\ is_int n.
Proof.
  destruct s as [|c s']; [by split; [|intros [[=] _]]|].
  cbn [ParseInt decimalValue]. cbv zeta. rewrite signedResult_ok_iff.
  destruct (Ascii.eqb c "-") eqn:Hm; [|destruct (Ascii.eqb c "+") eqn:Hp];
    rewrite ?orb_true_r; cbn [orb].
  - split.
    + intros (v & -> & -> & Hi). done.
    + intros [Hd Hi]. destruct (unsignedValue s') as [v|]; [|done].
      injection Hd as <-. eauto.
  - split.
    + intros (v & -> & -> & Hi). done.
    + intros [Hd Hi]. eauto.
  - split.
    + intros (v & -> & -> & Hi). done.
    + intros [Hd Hi]. eauto.
Qed.

(** [Atoi] returns [(n, nil)] exactly on the valid decimal numerals of
    value [n]. *)
Lemma Atoi_ok_iff s n :
  Atoi s = (n, None) <-> decimalValue s = Some n /\ is_int n.
Proof.
  rewrite <- ParseInt_ok_iff. unfold Atoi.
  destruct (ParseInt s) as [m [e|]]; cbn; split; congruence.
Qed.

Lemma Atoi_nil_iff s : snd (Atoi s) = None <-> validDecimalInt s.
Proof.
  unfold validDecimalInt. split.
  - destruct (Atoi s) as [n [e|]] eqn:E; [done|]. intros _.
    exists n. by apply Atoi_ok_iff.
  - intros (n & H). apply Atoi_ok_iff in H. by rewrite H.
Qed.

(** The value that comes with an error of [Atoi]: 0 with a syntax error,
    a limit of the [int] range with a range error. *)
Lemma Atoi_error_value s n e :
  Atoi s = (n, Some e) ->
  (n = 0 /\ e = NumError "Atoi" s ErrSyntax) \/
  ((n = MaxInt \/ n = MinInt) /\ e = NumError "Atoi" s ErrRange).
Proof.
  unfold Atoi. destruct (ParseInt s) as [m err] eqn:E. cbn.
  destruct err as [ne|]; [|discriminate]. intros [= <- <-].
  destruct s as [|c s']; [inversion E; auto|].
  cbn [ParseInt] in E. cbv zeta in E. unfold signedResult in E.
  destruct (ParseUint _) as [un [[]|]]; cbv zeta in E.
  - inversion E; auto.
  - destruct (_ && _) in E; [inversion E; auto|].
    destruct (_ && _) in E; [inversion E; auto|]. discriminate.
  - destruct (_ && _) in E; [inversion E; auto|].
    destruct (_ && _) in E; [inversion E; auto|]. discriminate.
Qed.

End Atoi_refinement.

(** ** Printing back what [Atoi] read *)

Section Itoa_Atoi.
Import strconv.

Lemma append_empty_r (s : string) : s +:+ "" = s.
Proof.
  induction s as [|c s IH]; [done|].
  change (String c (s +:+ "") = String c s). by rewrite IH.
Qed.





Example Itoa_Atoi_fails_on_leading_zero :
  Atoi "01" = (1, None) /\ Itoa 1 <> "01"%string.
Proof. split; [reflexivity|discriminate]. Qed.

End Itoa_Atoi.

(** ** Route variables *)

Lemma RouteVars_lookup (s : PullRequestSpec) (k : string) :
  RouteVars s !! k =
  if decide (k = "Pull"%string) then Some (strconv.Itoa (Number s))
  else if decide (k = "RepoSpec"%string) then Some (URI (Repo s))
  else None.
Proof.
  unfold RouteVars. repeat case_decide; subst; simplify_map_eq; done.
Qed.

Lemma CommentRouteVars_lookup (c : PullRequestCommentSpec) (k : string) :
  CommentRouteVars c !! k =
  if decide (k = "CommentID"%string) then Some (strconv.Itoa (Comment c))
  else RouteVars (Pull c) !! k.
Proof.
  unfold CommentRouteVars. cbv zeta. case_decide; subst; simplify_map_eq; done.
Qed.

(** C4: the route variables of a pull-request spec are exactly the two
    entries RepoSpec (the repo URI) and Pull (the number in decimal); those
    of a comment spec are the pull request's entries, kept as they are,
    plus the one new key CommentID (the comment id in decimal).  The
    comment 7 on pull request 5 of a/b gives RepoSpec = a/b, Pull = 5 and
    CommentID = 7, and nothing else. *)
Theorem RouteVars_entries (s : PullRequestSpec) (c : PullRequestCommentSpec) :
  RouteVars s
  = {[ "RepoSpec"%string := URI (Repo s); "Pull"%string := strconv.Itoa (Number s) ]}
  /\ dom (RouteVars s) = ({[ "RepoSpec"%string; "Pull"%string ]} : gset string)
  /\ CommentRouteVars c
     = <[ "CommentID"%string := strconv.Itoa (Comment c) ]> (RouteVars (Pull c))
  /\ RouteVars (Pull c) !! "CommentID"%string = None
  /\ RouteVars (Pull c) ⊆ CommentRouteVars c
  /\ CommentRouteVars c !! "CommentID"%string = Some (strconv.Itoa (Comment c))
  /\ dom (CommentRouteVars c)
     = ({[ "RepoSpec"%string; "Pull"%string; "CommentID"%string ]} : gset string)
  /\ size (CommentRouteVars c) = 3%nat
  /\ CommentRouteVars
       {| Pull := {| Repo := {| URI := "a/b" |}; Number := 5 |}; Comment := 7 |}
     = {[ "RepoSpec"%string := "a/b"%string; "Pull"%string := "5"%string;
          "CommentID"%string := "7"%string ]}.
Proof.
  assert (Hnone : forall p, RouteVars p !! "CommentID"%string = None).
  { intros p. rewrite RouteVars_lookup. repeat case_decide; done. }
  assert (Hmap : forall p, RouteVars p
    = {[ "RepoSpec"%string := URI (Repo p); "Pull"%string := strconv.Itoa (Number p) ]}).
  { intros p. apply map_eq. intros k. rewrite RouteVars_lookup.
    repeat case_decide; subst; simplify_map_eq; done. }
  assert (Hdom : forall p,
    dom (RouteVars p) = ({[ "RepoSpec"%string; "Pull"%string ]} : gset string)).
  { intros p. rewrite Hmap. rewrite dom_insert_L, dom_singleton_L. done. }
  split_and!.
  - apply Hmap.
  - apply Hdom.
  - done.
  - apply Hnone.
  - unfold CommentRouteVars. cbv zeta. by apply insert_subseteq.
  - rewrite CommentRouteVars_lookup. by case_decide.
  - unfold CommentRouteVars. cbv zeta. rewrite dom_insert_L, Hdom. set_solver.
  - unfold CommentRouteVars. cbv zeta.
    rewrite map_size_insert_None by apply Hnone.
    rewrite Hmap. rewrite map_size_insert_None by by simplify_map_eq.
    by rewrite map_size_singleton.
  - apply map_eq. intros k. rewrite CommentRouteVars_lookup, RouteVars_lookup.
    cbn [Pull Comment Repo URI Number].
    repeat case_decide; subst; simplify_map_eq; done.
Qed.

(** ** Unmarshalling route variables *)

Lemma index_RouteVars_Pull s : index (RouteVars s) "Pull" = strconv.Itoa (Number s).
Proof. unfold index. rewrite RouteVars_lookup. by case_decide. Qed.

Lemma sampleUnmarshalRepoSpec_recovers r :
  URI r <> ""%string -> recovers sampleUnmarshalRepoSpec r.
Proof.
  intros Hne v Hv. unfold sampleUnmarshalRepoSpec, index. rewrite Hv.
  destruct r as [[|c u]]; [done|reflexivity].
Qed.

Lemma is_int_small n : -1000 <= n <= 1000 -> strconv.is_int n.
Proof.
  unfold strconv.is_int.
  change strconv.MinInt with (-9223372036854775808).
  change strconv.MaxInt with 9223372036854775807. lia.
Qed.

Section Unmarshal_facts.
Variable UnmarshalRepoSpec : gmap string string -> RepoSpec * option error.

Lemma UnmarshalPullRequestSpec_RouteVars s :
  recovers UnmarshalRepoSpec (Repo s) -> strconv.is_int (Number s) ->
  UnmarshalPullRequestSpec UnmarshalRepoSpec (RouteVars s) = (s, None).
Proof.
  intros Hrec Hint. unfold UnmarshalPullRequestSpec.
  rewrite (Hrec (RouteVars s)) by (rewrite RouteVars_lookup; by repeat case_decide).
  cbv zeta. rewrite index_RouteVars_Pull, Atoi_Itoa by done.
  by destruct s.
Qed.

Lemma UnmarshalPullRequestSpec_unfold v :
  UnmarshalPullRequestSpec UnmarshalRepoSpec v =
  match UnmarshalRepoSpec v with
  | (repo, Some e) => ({| Repo := repo; Number := 0 |}, Some e)
  | (repo, None) =>
      ({| Repo := repo; Number := fst (strconv.Atoi (index v "Pull")) |},
       snd (strconv.Atoi (index v "Pull")))
  end.
Proof.
  unfold UnmarshalPullRequestSpec.
  destruct (UnmarshalRepoSpec v) as [repo [e|]]; [done|].
  by destruct (strconv.Atoi _).
Qed.

(** C1: unmarshalling is a left inverse of RouteVars for both composite
    specs: when the repo-spec collaborator recovers the spec's repo from
    any map that holds its URI under RepoSpec, and the numbers are ints,
    UnmarshalPullRequestSpec (RouteVars s) returns s with a nil error, and
    UnmarshalPullRequestCommentSpec (RouteVars c) returns c with a nil
    error. *)
Theorem Unmarshal_RouteVars_left_inverse :
  (forall s : PullRequestSpec,
     recovers UnmarshalRepoSpec (Repo s) -> strconv.is_int (Number s) ->
     UnmarshalPullRequestSpec UnmarshalRepoSpec (RouteVars s) = (s, None))
  /\
  (forall c : PullRequestCommentSpec,
     recovers UnmarshalRepoSpec (Repo (Pull c)) ->
     strconv.is_int (Number (Pull c)) -> strconv.is_int (Comment c) ->
     UnmarshalPullRequestCommentSpec UnmarshalRepoSpec (CommentRouteVars c) = (c, None)).
Proof.
  split; [exact UnmarshalPullRequestSpec_RouteVars|].
  intros c Hrec Hn Hc. unfold UnmarshalPullRequestCommentSpec.
  assert (Hpull : UnmarshalPullRequestSpec UnmarshalRepoSpec (CommentRouteVars c)
                  = (Pull c, None)).
  { unfold UnmarshalPullRequestSpec.
    rewrite (Hrec (CommentRouteVars c)).
    2:{ rewrite CommentRouteVars_lookup, RouteVars_lookup. by repeat case_decide. }
    cbv zeta.
    assert (index (CommentRouteVars c) "Pull" = strconv.Itoa (Number (Pull c))) as ->.
    { unfold index. rewrite CommentRouteVars_lookup, RouteVars_lookup.
      by repeat case_decide. }
    rewrite Atoi_Itoa by done. by destruct (Pull c). }
  rewrite Hpull. cbv zeta.
  assert (index (CommentRouteVars c) "CommentID" = strconv.Itoa (Comment c)) as ->.
  { unfold index. rewrite CommentRouteVars_lookup. by case_decide. }
  rewrite Atoi_Itoa by done. by destruct c.
Qed.

(** C6: UnmarshalPullRequestSpec returns an error exactly when the Pull
    entry is missing or is not a valid decimal integer, or the repo
    extraction fails.  When the repo extraction fails its error is
    returned as it is, and the Pull entry plays no part: the result is
    fixed by the collaborator's answer alone. *)
Theorem UnmarshalPullRequestSpec_error_iff (v : gmap string string) :
  (snd (UnmarshalPullRequestSpec UnmarshalRepoSpec v) <> None <->
     (v !! "Pull"%string = None \/
      (exists p, v !! "Pull"%string = Some p /\ ~ strconv.validDecimalInt p)) \/
     snd (UnmarshalRepoSpec v) <> None)
  /\
  (forall repo e, UnmarshalRepoSpec v = (repo, Some e) ->
     UnmarshalPullRequestSpec UnmarshalRepoSpec v
     = ({| Repo := repo; Number := 0 |}, Some e))
  /\
  (forall v', snd (UnmarshalRepoSpec v) <> None ->
     UnmarshalRepoSpec v' = UnmarshalRepoSpec v ->
     UnmarshalPullRequestSpec UnmarshalRepoSpec v'
     = UnmarshalPullRequestSpec UnmarshalRepoSpec v).
Proof.
  split_and!.
  - rewrite UnmarshalPullRequestSpec_unfold.
    destruct (UnmarshalRepoSpec v) as [repo [e|]]; cbn [snd].
    + split; [by right|done].
    + unfold index.
      destruct (v !! "Pull"%string) as [p|] eqn:Hp; cbn [default].
      * split.
        -- intros H. left. right. exists p. split; [done|].
           intros Hv. apply H. by apply Atoi_nil_iff.
        -- intros [[|(p' & [= <-] & H)]|]; [done| |done].
           intros HA. apply H. by apply Atoi_nil_iff.
      * split; [by left; left|]. intros _. discriminate.
  - intros repo e H. rewrite UnmarshalPullRequestSpec_unfold. by rewrite H.
  - intros v' Herr Heq. rewrite !UnmarshalPullRequestSpec_unfold, Heq.
    by destruct (UnmarshalRepoSpec v) as [repo [e|]].
Qed.

(** C7, as amended: an error of UnmarshalPullRequestCommentSpec always
    comes with the zero-value spec.  An error of UnmarshalPullRequestSpec
    comes with the spec as far as it was filled in: after a failed repo
    extraction, the repo the collaborator returned and number 0; after a
    failed number, the repo already extracted and the number Atoi returned
    with its error (0, or a limit of the int range). *)
Theorem Unmarshal_error_results (v : gmap string string) :
  (forall spec e,
     UnmarshalPullRequestCommentSpec UnmarshalRepoSpec v = (spec, Some e) ->
     spec = zeroPullRequestCommentSpec)
  /\
  (forall ps e,
     UnmarshalPullRequestSpec UnmarshalRepoSpec v = (ps, Some e) ->
     (UnmarshalRepoSpec v = (Repo ps, Some e) /\ Number ps = 0) \/
     (UnmarshalRepoSpec v = (Repo ps, None) /\
      strconv.Atoi (index v "Pull") = (Number ps, Some e) /\
      (Number ps = 0 \/ Number ps = strconv.MaxInt \/ Number ps = strconv.MinInt))).
Proof.
  split.
  - intros spec e. unfold UnmarshalPullRequestCommentSpec.
    destruct (UnmarshalPullRequestSpec _ v) as [pull [e1|]]; cbv zeta.
    + by intros [= <- _].
    + destruct (strconv.Atoi _) as [cid [e2|]]; [by intros [= <- _]|done].
  - intros ps e. rewrite UnmarshalPullRequestSpec_unfold.
    destruct (UnmarshalRepoSpec v) as [repo [e1|]].
    + intros [= <- <-]. by left.
    + destruct (strconv.Atoi (index v "Pull")) as [n err] eqn:EA. cbn [fst snd].
      intros [= <- ->]. right. cbn [Repo Number]. split_and!; [done..|].
      apply Atoi_error_value in EA. tauto.
Qed.

End Unmarshal_facts.

Lemma Unmarshal_RouteVars_left_inverse_witness :
  let c := {| Pull := {| Repo := {| URI := "a/b" |}; Number := 5 |}; Comment := 7 |} in
  UnmarshalPullRequestSpec sampleUnmarshalRepoSpec (RouteVars (Pull c)) = (Pull c, None)
  /\ UnmarshalPullRequestCommentSpec sampleUnmarshalRepoSpec (CommentRouteVars c)
     = (c, None).
Proof.
  intros c. split.
  - apply (proj1 (Unmarshal_RouteVars_left_inverse sampleUnmarshalRepoSpec)).
    + apply sampleUnmarshalRepoSpec_recovers. discriminate.
    + apply is_int_small. simpl. lia.
  - apply (proj2 (Unmarshal_RouteVars_left_inverse sampleUnmarshalRepoSpec)).
    + apply sampleUnmarshalRepoSpec_recovers. discriminate.
    + apply is_int_small. simpl. lia.
    + apply is_int_small. simpl. lia.
Defined.

(** The claim C6 at a map without a Pull entry, at one with a Pull entry
    that is no numeral, and at one without a repo. *)
Lemma UnmarshalPullRequestSpec_error_iff_witness :
  UnmarshalPullRequestSpec sampleUnmarshalRepoSpec {[ "Pull"%string := "5"%string ]}
  = (zeroPullRequestSpec, Some (Foreign "empty repo spec")).
Proof.
  apply (proj1 (proj2 (UnmarshalPullRequestSpec_error_iff sampleUnmarshalRepoSpec
                         {[ "Pull"%string := "5"%string ]}))).
  reflexivity.
Defined.

(** C7 fails as stated: without a Pull entry the repo is filled in and
    returned next to the error. *)
Lemma UnmarshalPullRequestSpec_partial_on_error :
  let v : gmap string string := {[ "RepoSpec"%string := "a/b"%string ]} in
  UnmarshalPullRequestSpec sampleUnmarshalRepoSpec v
  = ({| Repo := {| URI := "a/b" |}; Number := 0 |},
     Some (NumError "Atoi" "" ErrSyntax))
  /\ fst (UnmarshalPullRequestSpec sampleUnmarshalRepoSpec v) <> zeroPullRequestSpec.
Proof. split; [reflexivity|discriminate]. Qed.

Lemma Unmarshal_error_results_witness :
  let v : gmap string string := {[ "RepoSpec"%string := "a/b"%string;
                                   "Pull"%string := "5"%string ]} in
  fst (UnmarshalPullRequestCommentSpec sampleUnmarshalRepoSpec v)
  = zeroPullRequestCommentSpec.
Proof.
  intros v.
  apply (proj1 (Unmarshal_error_results sampleUnmarshalRepoSpec v)
           _ (NumError "Atoi" "" ErrSyntax)).
  reflexivity.
Defined.

Example UnmarshalPullRequestSpec_range :
  UnmarshalPullRequestSpec sampleUnmarshalRepoSpec
    {[ "RepoSpec"%string := "a/b"%string; "Pull"%string := "9223372036854775808"%string ]}
  = ({| Repo := {| URI := "a/b" |}; Number := strconv.MaxInt |},
     Some (NumError "Atoi" "9223372036854775808" ErrRange)).
Proof. reflexivity. Qed.

(** ** Splitting a URL *)

Section Split_facts.
Import strings.

Lemma append_assoc (a b c : string) : (a +:+ b) +:+ c = a +:+ (b +:+ c).
Proof.
  induction a as [|x a IH]; [done|].
  change (String x ((a +:+ b) +:+ c) = String x (a +:+ (b +:+ c))).
  by rewrite IH.
Qed.

Lemma cutPrefix_app p s : cutPrefix (p +:+ s) p = Some s.
Proof.
  induction p as [|c p IH]; [by destruct s|].
  change (String c p +:+ s) with (String c (p +:+ s)).
  cbn [cutPrefix]. by rewrite Ascii.eqb_refl.
Qed.

Lemma cutPrefix_Some s p rest : cutPrefix s p = Some rest -> s = p +:+ rest.
Proof.
  revert s. induction p as [|c p IH]; intros s H.
  - destruct s; cbn in H; by injection H as <-.
  - destruct s as [|b s]; [discriminate|]. cbn [cutPrefix] in H.
    destruct (Ascii.eqb c b) eqn:E; [|discriminate].
    apply Ascii.eqb_eq in E as <-. apply IH in H as ->. done.
Qed.

Lemma TrimPrefix_app p s : TrimPrefix (p +:+ s) p = s.
Proof. unfold TrimPrefix. by rewrite cutPrefix_app. Qed.

Lemma HasPrefix_byte c b s :
  HasPrefix (String b s) (String c "") = Ascii.eqb c b.
Proof.
  unfold HasPrefix. cbn [cutPrefix].
  destruct (Ascii.eqb c b); [by destruct s|done].
Qed.

Lemma free_of_cons c b s :
  free_of c (String b s) <-> Ascii.eqb c b = false /\ free_of c s.
Proof.
  unfold free_of. cbn [Contains]. rewrite HasPrefix_byte, orb_false_iff. done.
Qed.

(** A segment free of the separator is read into [cur] whole. *)
Lemma genSplit_segment c seg : forall cur rest,
  free_of c seg ->
  genSplit (String c "") 0 cur (seg +:+ rest)
  = genSplit (String c "") 0 (cur +:+ seg) rest.
Proof.
  induction seg as [|b seg IH]; intros cur rest Hfree.
  - by rewrite append_empty_r.
  - apply free_of_cons in Hfree as [Hb Hfree].
    change (String b seg +:+ rest) with (String b (seg +:+ rest)).
    cbn [genSplit]. rewrite HasPrefix_byte, Hb.
    rewrite IH by done. by rewrite append_assoc.
Qed.

Lemma genSplit_separator c cur rest :
  genSplit (String c "") 0 cur (String c rest)
  = cur :: genSplit (String c "") 0 "" rest.
Proof. cbn [genSplit]. by rewrite HasPrefix_byte, Ascii.eqb_refl. Qed.

(** Splitting on one byte gives one segment more than there are
    separators. *)
Lemma genSplit_length c s : forall cur,
  length (genSplit (String c "") 0 cur s) = S (count_byte c s).
Proof.
  induction s as [|b s IH]; intros cur; [done|].
  cbn [genSplit count_byte]. rewrite HasPrefix_byte.
  destruct (Ascii.eqb c b); cbn [String.length Nat.sub length]; by rewrite IH.
Qed.

Lemma Split_length c s :
  length (Split s (String c "")) = S (count_byte c s).
Proof. apply genSplit_length. Qed.

(** The first three segments of [a/b/c] and of [a/b/c/...]. *)
Lemma Split_three c a b d tail :
  free_of c a -> free_of c b -> free_of c d ->
  tail = ""%string \/ HasPrefix tail (String c "") = true ->
  take 3 (Split (a +:+ String c "" +:+ b +:+ String c "" +:+ d +:+ tail) (String c ""))
  = [a; b; d]
  /\ (3 <= length (Split (a +:+ String c "" +:+ b +:+ String c "" +:+ d +:+ tail)
                     (String c "")))%nat.
Proof.
  intros Ha Hb Hd Htail. unfold Split.
  rewrite genSplit_segment by done.
  change (String c "" +:+ ?x) with (String c x).
  rewrite genSplit_separator, genSplit_segment by done.
  change (String c "" +:+ ?x) with (String c x).
  rewrite genSplit_separator, genSplit_segment by done.
  change ("" +:+ ?x) with x.
  destruct Htail as [->|Hp].
  - cbn. split; [done|lia].
  - destruct tail as [|t tail]; [done|].
    rewrite HasPrefix_byte in Hp. apply Ascii.eqb_eq in Hp as <-.
    rewrite genSplit_separator. cbn [take length]. split; [done|lia].
Qed.

End Split_facts.

(** ** The spec of a pull request *)

(** C5: for a pull request whose HTMLURL is https://host/seg1/seg2 or
    https://host/seg1/seg2/..., host and the two segments being free of
    slashes, Spec returns the spec whose repo URI is host/seg1/seg2 and
    whose number is the pull request's Number field. *)
Theorem Spec_of_canonical_url (r : PullRequest) (host seg1 seg2 tail : string) (n : Z) :
  free_of "/" host -> free_of "/" seg1 -> free_of "/" seg2 ->
  tail = ""%string \/ strings.HasPrefix tail "/" = true ->
  github.HTMLURL r
  = Some ("https://" +:+ host +:+ "/" +:+ seg1 +:+ "/" +:+ seg2 +:+ tail) ->
  github.Number r = Some n ->
  Spec r = Returns {| Repo := {| URI := host +:+ "/" +:+ seg1 +:+ "/" +:+ seg2 |};
                      Number := n |}.
Proof.
  intros Hh H1 H2 Htail Hurl Hn. unfold Spec. rewrite Hurl, Hn.
  cbn [deref obind]. rewrite TrimPrefix_app.
  destruct (Split_three "/" host seg1 seg2 tail Hh H1 H2 Htail) as [Htake Hlen].
  unfold slice_0_3. rewrite decide_True by done. cbn [obind].
  rewrite Htake. reflexivity.
Qed.

Lemma Spec_of_canonical_url_witness :
  Spec {| github.Number := Some 12;
          github.HTMLURL := Some "https://github.com/fossas/go-sourcegraph/pull/12"%string |}
  = Returns {| Repo := {| URI := "github.com/fossas/go-sourcegraph" |}; Number := 12 |}.
Proof.
  apply (Spec_of_canonical_url _ "github.com" "fossas" "go-sourcegraph" "/pull/12" 12);
    try reflexivity.
  right. reflexivity.
Defined.

(** C9: Spec returns exactly when HTMLURL and Number are non-nil and the
    HTMLURL, once the https:// prefix is trimmed, splits on slashes into at
    least three segments (it holds at least two slashes).  With fewer
    segments the slice expression is out of bounds and Spec panics; a nil
    HTMLURL or Number is a nil dereference. *)
Theorem Spec_returns_iff (r : PullRequest) :
  ((exists s, Spec r = Returns s) <->
   exists url n,
     github.HTMLURL r = Some url /\ github.Number r = Some n /\
     (3 <= length (strings.Split (strings.TrimPrefix url "https://") "/"))%nat)
  /\
  (forall url,
     github.HTMLURL r = Some url ->
     length (strings.Split (strings.TrimPrefix url "https://") "/")
     = S (count_byte "/" (strings.TrimPrefix url "https://")))
  /\
  (forall url,
     github.HTMLURL r = Some url ->
     (length (strings.Split (strings.TrimPrefix url "https://") "/") < 3)%nat ->
     Spec r = Panic SliceBoundsOutOfRange)
  /\
  (github.HTMLURL r = None -> Spec r = Panic NilDereference)
  /\
  (forall url,
     github.HTMLURL r = Some url ->
     (3 <= length (strings.Split (strings.TrimPrefix url "https://") "/"))%nat ->
     github.Number r = None -> Spec r = Panic NilDereference).
Proof.
  unfold Spec, slice_0_3. split_and!.
  - split.
    + intros [s H]. destruct (github.HTMLURL r) as [url|]; [|discriminate].
      cbn [deref obind] in H. case_decide as Hlen; [|discriminate].
      cbn [obind] in H. destruct (github.Number r) as [n|]; [|discriminate].
      by exists url, n.
    + intros (url & n & -> & -> & Hlen). cbn [deref obind].
      rewrite decide_True by done. cbn [obind]. eauto.
  - intros url _. apply Split_length.
  - intros url -> Hlen. cbn [deref obind]. rewrite decide_False by lia. done.
  - by intros ->.
  - intros url -> Hlen ->. cbn [deref obind]. by rewrite decide_True by done.
Qed.

Lemma Spec_returns_iff_witness :
  Spec {| github.Number := Some 12;
          github.HTMLURL := Some "https://github.com/fossas"%string |}
  = Panic SliceBoundsOutOfRange.
Proof.
  apply (proj1 (proj2 (proj2 (Spec_returns_iff _))) "https://github.com/fossas"%string).
  - reflexivity.
  - vm_compute. lia.
Defined.

Example Spec_nil_url :
  Spec {| github.Number := Some 12; github.HTMLURL := None |} = Panic NilDereference.
Proof. reflexivity. Qed.

Example Spec_without_scheme :
  Spec {| github.Number := Some 3; github.HTMLURL := Some "a/b/c/d"%string |}
  = Returns {| Repo := {| URI := "a/b/c" |}; Number := 3 |}.
Proof. reflexivity. Qed.

(** ** Editing a comment *)

Section Service_facts.
Variables URL Request Response : Type.
Variable URL_String : URL -> string.
Variable client_url : route -> gmap string string -> URL * option error.
Variable client_NewRequest :
  string -> string -> option PullRequestComment -> Request * option error.
Variable client_Do : Request -> PullRequestComment * option Response * option error.

Local Abbreviation edit :=
  (EditComment URL Request Response URL_String
     client_url client_NewRequest client_Do).
Local Abbreviation guardError := (Errorf "comment ID not specified").

Lemma EditComment_log pull c id (log : list (event Request)) :
  github.ID (comment c) = Some id ->
  exists rest,
    snd (edit pull c log)
    = log ++ UrlBuilt RepoPullRequestCommentsEdit
               (CommentRouteVars {| Pull := pull; Comment := id |}) :: rest.
Proof.
  intros Hid. unfold EditComment. rewrite Hid.
  unfold bind, call_url, call_NewRequest, call_Do, emit, ret. cbn.
  destruct (client_url _ _) as [url [e|]]; cbn; [by exists []|].
  destruct (client_NewRequest _ _ _) as [req [e|]]; cbn.
  { eexists. by rewrite <- app_assoc. }
  destruct (client_Do req) as [[upd resp] [e|]]; cbn;
    eexists; by rewrite <- !app_assoc.
Qed.

Lemma app_cons_neq {A} (l rest : list A) (x : A) : l ++ x :: rest <> l.
Proof.
  intros H. apply (f_equal length) in H.
  rewrite length_app in H. cbn in H. lia.
Qed.

(** C10: EditComment returns the error "comment ID not specified", having
    asked nothing of its client, exactly when the comment's ID is nil: no
    URL is built and no request is constructed or sent.  With a non-nil
    ID the first thing it does is to build the URL of the edit route from
    the route variables of the comment spec made of the pull request and
    that ID, and any error it returns is one its client returned; so, the
    client never answering with the guard's own error, that error is
    returned if and only if the ID is nil. *)
Theorem EditComment_ID_guard pull c (log : list (event Request)) :
  (github.ID (comment c) = None ->
     edit pull c log = ((None, None, Some guardError), log))
  /\
  ((snd (fst (edit pull c log)) = Some guardError /\ snd (edit pull c log) = log)
   <-> github.ID (comment c) = None)
  /\
  (forall id, github.ID (comment c) = Some id ->
     let vars := CommentRouteVars {| Pull := pull; Comment := id |} in
     (exists rest,
        snd (edit pull c log)
        = log ++ UrlBuilt RepoPullRequestCommentsEdit vars :: rest)
     /\
     (forall e, snd (fst (edit pull c log)) = Some e ->
        snd (client_url RepoPullRequestCommentsEdit vars) = Some e \/
        (exists url, snd (client_NewRequest "PATCH" url (Some c)) = Some e) \/
        (exists req, snd (client_Do req) = Some e)))
  /\
  ((forall r vars, snd (client_url r vars) <> Some guardError) ->
   (forall m u b, snd (client_NewRequest m u b) <> Some guardError) ->
   (forall req, snd (client_Do req) <> Some guardError) ->
   (snd (fst (edit pull c log)) = Some guardError <-> github.ID (comment c) = None)).
Proof.
  assert (Herr : forall id, github.ID (comment c) = Some id ->
    forall e, snd (fst (edit pull c log)) = Some e ->
      snd (client_url RepoPullRequestCommentsEdit
             (CommentRouteVars {| Pull := pull; Comment := id |})) = Some e \/
      (exists url, snd (client_NewRequest "PATCH" url (Some c)) = Some e) \/
      (exists req, snd (client_Do req) = Some e)).
  { intros id Hid e. unfold EditComment. rewrite Hid.
    unfold bind, call_url, call_NewRequest, call_Do, emit, ret. cbn.
    destruct (client_url _ _) as [url [e1|]] eqn:E1; cbn; [by left|].
    destruct (client_NewRequest _ _ _) as [req [e2|]] eqn:E2; cbn.
    { intros [= <-]. right. left. exists (URL_String url). by rewrite E2. }
    destruct (client_Do req) as [[upd resp] [e3|]] eqn:E3; cbn; [|done].
    intros [= <-]. right. right. exists req. by rewrite E3. }
  split_and!.
  - intros Hid. unfold EditComment. by rewrite Hid.
  - split.
    + intros [_ Hlog]. destruct (github.ID (comment c)) as [id|] eqn:Hid; [|done].
      destruct (EditComment_log pull c id log Hid) as [rest Hrest].
      rewrite Hrest in Hlog. by apply app_cons_neq in Hlog.
    + intros Hid. unfold EditComment. by rewrite Hid.
  - intros id Hid vars. split; [by apply EditComment_log|]. by apply Herr.
  - intros Hu Hn Hd. split.
    + intros He. destruct (github.ID (comment c)) as [id|] eqn:Hid; [|done].
      destruct (Herr id eq_refl _ He) as [H|[[url H]|[req H]]].
      * by apply Hu in H.
      * by apply Hn in H.
      * by apply Hd in H.
    + intros Hid. unfold EditComment. by rewrite Hid.
Qed.

End Service_facts.

(** A client that answers every call, for concrete runs. *)
Lemma EditComment_ID_guard_witness :
  let pull := {| Repo := {| URI := "a/b" |}; Number := 5 |} in
  let c := {| Published := true;
              comment := {| github.ID := None; github.Body := Some "text"%string |} |} in
  EditComment string string unit (fun u => u)
    (fun _ _ => ("/repos/a/b/pull/5/comments/7"%string, None))
    (fun m u _ => (m +:+ " " +:+ u, None))
    (fun _ => (c, Some tt, None))
    pull c []
  = ((None, None, Some (Errorf "comment ID not specified")), []).
Proof.
  intros pull c.
  apply (proj1 (EditComment_ID_guard string string unit (fun u => u)
                  (fun _ _ => ("/repos/a/b/pull/5/comments/7"%string, None))
                  (fun m u _ => (m +:+ " " +:+ u, None))
                  (fun _ => (c, Some tt, None)) pull c [])).
  reflexivity.
Defined.

Example EditComment_sends :
  let pull := {| Repo := {| URI := "a/b" |}; Number := 5 |} in
  let c := {| Published := true;
              comment := {| github.ID := Some 7; github.Body := Some "text"%string |} |} in
  EditComment string string unit (fun u => u)
    (fun _ _ => ("/x"%string, None))
    (fun m u _ => (m +:+ " " +:+ u, None))
    (fun _ => (c, Some tt, None))
    pull c []
  = ((Some c, Some tt, None),
     [ UrlBuilt RepoPullRequestCommentsEdit
         (CommentRouteVars {| Pull := pull; Comment := 7 |});
       RequestConstructed "PATCH" "/x" (Some c);
       RequestSent "PATCH /x"%string ]).
Proof. reflexivity. Qed.

(** ** Person specs *)

Section PersonSpec_facts.
Import strings strconv.

Lemma Contains_byte_iff c s :
  Contains s (String c "") = true <-> exists a b, s = a +:+ String c b.
Proof.
  induction s as [|x s IH].
  - split; [discriminate|]. intros (a & b & H). by destruct a.
  - cbn [Contains]. rewrite HasPrefix_byte, orb_true_iff, IH. split.
    + intros [->%Ascii.eqb_eq|(a & b & ->)].
      * by exists ""%string, s.
      * by exists (String x a), b.
    + intros (a & b & H). destruct a as [|y a].
      * injection H as -> ->. left. apply Ascii.eqb_refl.
      * injection H as -> ->. right. eauto.
Qed.

Lemma cutPrefix_byte_None c s :
  cutPrefix s (String c "") = None <-> forall rest, s <> String c rest.
Proof.
  destruct s as [|b s]; cbn [cutPrefix]; [by split|].
  destruct (Ascii.eqb c b) eqn:E.
  - apply Ascii.eqb_eq in E as ->. split; [by destruct s|].
    intros H. by destruct (H s).
  - apply Ascii.eqb_neq in E. split; [|done]. intros _ rest [= -> _]. done.
Qed.

Lemma cutPrefix_byte_cons c s : cutPrefix (String c s) (String c "") = Some s.
Proof. cbn [cutPrefix]. rewrite Ascii.eqb_refl. by destruct s. Qed.

Lemma count_populated_uid uid :
  count_populated {| Login := ""; Email := ""; UID := uid |}
  = if 0 <? uid then 1%nat else 0%nat.
Proof. unfold count_populated, populated. cbn. by destruct (0 <? uid). Qed.

Lemma count_populated_email text :
  count_populated {| Login := ""; Email := text; UID := 0 |}
  = if String.eqb text "" then 0%nat else 1%nat.
Proof. unfold count_populated, populated. cbn. by destruct text. Qed.

Lemma count_populated_login text :
  count_populated {| Login := text; Email := ""; UID := 0 |}
  = if String.eqb text "" then 0%nat else 1%nat.
Proof. unfold count_populated, populated. cbn. by destruct text. Qed.

(** What a successful parse read, by the branch of the grammar taken. *)
Lemma ParsePersonSpec_inl text s :
  ParsePersonSpec text = inl s ->
  (exists rest uid, text = String "$" rest /\ Atoi rest = (uid, None) /\ 0 <= uid /\
                    s = {| Login := ""; Email := ""; UID := uid |}) \/
  ((forall rest, text <> String "$" rest) /\
   (s = {| Login := ""; Email := text; UID := 0 |} \/
    s = {| Login := text; Email := ""; UID := 0 |})).
Proof.
  unfold ParsePersonSpec. destruct (cutPrefix text "$") as [rest|] eqn:Hcut.
  - apply cutPrefix_Some in Hcut as ->.
    destruct (Atoi rest) as [uid [e|]] eqn:EA; [discriminate|].
    destruct (0 <=? uid) eqn:Hpos; [|discriminate].
    intros [= <-]. left. exists rest, uid. split_and!; try done. lia.
  - intros H. right. split; [by apply cutPrefix_byte_None|].
    destruct (Contains text "@"); injection H as <-; auto.
Qed.

(** C3 fails as stated: after a dollar sign the numeral 0 is accepted, and
    the spec returned has its UID at zero, so no field of it is populated. *)
Lemma ParsePersonSpec_dollar_zero_not_populated :
  ParsePersonSpec "$0" = inl {| Login := ""; Email := ""; UID := 0 |}
  /\ populated {| Login := ""; Email := ""; UID := 0 |} = [false; false; false]
  /\ count_populated {| Login := ""; Email := ""; UID := 0 |} <> 1%nat.
Proof. split_and!; [reflexivity|reflexivity|discriminate]. Qed.

(** C3, as amended: the grammar of ParsePersonSpec, in order.  After a
    leading dollar sign the remainder must be a decimal numeral of a
    non-negative int, and anything else is an InvalidFormat failure (so is
    the text dollar-x); the spec returned has that number as its UID and
    empty Login and Email, so it is UID-populated exactly when the number
    is positive and is the all-zero spec when the number is zero.  Else a
    text with an at sign in it is the Email, verbatim; else the text is
    the Login, verbatim.  The three rows of the test table parse as the
    table says, and the test passes. *)
Theorem ParsePersonSpec_grammar :
  (forall rest uid,
     decimalValue rest = Some uid -> 0 <= uid <= MaxInt ->
     ParsePersonSpec (String "$" rest) = inl {| Login := ""; Email := ""; UID := uid |})
  /\
  (forall rest,
     ~ (exists uid, decimalValue rest = Some uid /\ 0 <= uid <= MaxInt) ->
     ParsePersonSpec (String "$" rest) = inr InvalidFormat)
  /\
  (forall text,
     (forall rest, text <> String "$" rest) ->
     (exists a b, text = a +:+ String "@" b) ->
     ParsePersonSpec text = inl {| Login := ""; Email := text; UID := 0 |})
  /\
  (forall text,
     (forall rest, text <> String "$" rest) ->
     ~ (exists a b, text = a +:+ String "@" b) ->
     ParsePersonSpec text = inl {| Login := text; Email := ""; UID := 0 |})
  /\ ParsePersonSpec "a" = inl {| Login := "a"; Email := ""; UID := 0 |}
  /\ ParsePersonSpec "a@a.com" = inl {| Login := ""; Email := "a@a.com"; UID := 0 |}
  /\ ParsePersonSpec "$1" = inl {| Login := ""; Email := ""; UID := 1 |}
  /\ ParsePersonSpec "$x" = inr InvalidFormat
  /\ TestPersonSpec = []
  /\
  (forall rest s,
     ParsePersonSpec (String "$" rest) = inl s ->
     Login s = ""%string /\ Email s = ""%string /\
     decimalValue rest = Some (UID s) /\ 0 <= UID s <= MaxInt /\
     populated s = [false; false; 0 <? UID s] /\
     (count_populated s = 1%nat <-> 0 < UID s) /\
     (count_populated s = 0%nat <-> UID s = 0)).
Proof.
  split_and!; try reflexivity.
  - intros rest uid Hd Hr. unfold ParsePersonSpec. rewrite cutPrefix_byte_cons.
    assert (HA : Atoi rest = (uid, None)).
    { apply Atoi_ok_iff. split; [done|]. unfold is_int, MinInt, MaxInt in *. lia. }
    rewrite HA. by replace (0 <=? uid) with true by (symmetry; apply Z.leb_le; lia).
  - intros rest Hno. unfold ParsePersonSpec. rewrite cutPrefix_byte_cons.
    destruct (Atoi rest) as [uid [e|]] eqn:EA; [done|].
    destruct (0 <=? uid) eqn:Hpos; [|done].
    exfalso. apply Hno. exists uid. apply Atoi_ok_iff in EA as [Hd Hi].
    apply Z.leb_le in Hpos. unfold is_int in Hi. split; [done|lia].
  - intros text Hnd Hat. unfold ParsePersonSpec.
    apply cutPrefix_byte_None in Hnd. rewrite Hnd.
    apply Contains_byte_iff in Hat. by rewrite Hat.
  - intros text Hnd Hat. unfold ParsePersonSpec.
    apply cutPrefix_byte_None in Hnd. rewrite Hnd.
    destruct (Contains text "@") eqn:E; [|done].
    by apply Contains_byte_iff in E.
  - intros rest s H. apply ParsePersonSpec_inl in H
      as [(rest' & uid & [= <-] & HA & Hpos & ->)|[Hnd _]];
      [|by destruct (Hnd rest)].
    apply Atoi_ok_iff in HA as [Hd Hi]. unfold is_int in Hi.
    rewrite count_populated_uid. cbn [Login Email UID].
    split_and!; try done; try lia.
    + destruct (0 <? uid) eqn:Hlt; [apply Z.ltb_lt in Hlt|apply Z.ltb_ge in Hlt];
        split; (done || lia).
    + destruct (0 <? uid) eqn:Hlt; [apply Z.ltb_lt in Hlt|apply Z.ltb_ge in Hlt];
        split; (done || lia).
Qed.

Lemma ParsePersonSpec_grammar_witness :
  ParsePersonSpec "$42" = inl {| Login := ""; Email := ""; UID := 42 |}
  /\ ParsePersonSpec "sqs@sourcegraph.com"
     = inl {| Login := ""; Email := "sqs@sourcegraph.com"; UID := 0 |}.
Proof.
  split.
  - apply (proj1 ParsePersonSpec_grammar "42"%string 42); [reflexivity|].
    vm_compute. split; discriminate.
  - apply (proj1 (proj2 (proj2 ParsePersonSpec_grammar)) "sqs@sourcegraph.com"%string).
    + intros rest. discriminate.
    + exists "sqs"%string, "sourcegraph.com"%string. reflexivity.
Defined.

(** C8 fails as stated: the empty text parses to the all-zero spec, and so
    does a dollar sign followed by a numeral of value zero. *)
Lemma ParsePersonSpec_empty_text_populates_nothing :
  ParsePersonSpec "" = inl {| Login := ""; Email := ""; UID := 0 |}
  /\ count_populated {| Login := ""; Email := ""; UID := 0 |} = 0%nat
  /\ ParsePersonSpec "$0" = inl {| Login := ""; Email := ""; UID := 0 |}.
Proof. repeat split. Qed.

(** C8, as amended: a spec returned without error by ParsePersonSpec never
    has two fields populated; it has exactly one populated unless the text
    is empty or is a dollar sign followed by a numeral of value zero, in
    which cases it has none. *)
Theorem ParsePersonSpec_exclusive (text : string) (s : PersonSpec) :
  ParsePersonSpec text = inl s ->
  (count_populated s <= 1)%nat
  /\ (count_populated s = 0%nat <->
      text = ""%string \/
      exists rest, text = String "$" rest /\ decimalValue rest = Some 0).
Proof.
  intros H. apply ParsePersonSpec_inl in H
    as [(rest & uid & -> & HA & Hpos & ->)|[Hnd [-> | ->]]].
  - rewrite count_populated_uid. apply Atoi_ok_iff in HA as [Hd Hi].
    destruct (0 <? uid) eqn:Hlt; [apply Z.ltb_lt in Hlt|apply Z.ltb_ge in Hlt].
    + split; [lia|]. split; [done|].
      intros [|(rest' & [= <-] & Hz)]; [done|]. rewrite Hd in Hz.
      injection Hz as ->. lia.
    + split; [lia|]. split; [|done]. intros _. right. exists rest.
      split; [done|]. rewrite Hd. f_equal. lia.
  - rewrite count_populated_email. destruct text as [|c t]; cbn.
    + split; [lia|]. split; auto.
    + split; [lia|]. split; [done|].
      intros [|(rest & Ht & _)]; [done|]. by destruct (Hnd rest).
  - rewrite count_populated_login. destruct text as [|c t]; cbn.
    + split; [lia|]. split; auto.
    + split; [lia|]. split; [done|].
      intros [|(rest & Ht & _)]; [done|]. by destruct (Hnd rest).
Qed.

Lemma ParsePersonSpec_exclusive_witness :
  (count_populated {| Login := ""; Email := "a@a.com"; UID := 0 |} <= 1)%nat.
Proof.
  apply (proj1 (ParsePersonSpec_exclusive "a@a.com"
                  {| Login := ""; Email := "a@a.com"; UID := 0 |} eq_refl)).
Defined.

End PersonSpec_facts.

(** ** The round trip of person specs *)

Section PersonSpec_round_trips.
Import strings strconv.








End PersonSpec_round_trips.

(** * Further properties of [pulls.go] *)

(** ** Route variables tell specs apart *)

Lemma Itoa_inj n m :
  strconv.is_int n -> strconv.is_int m -> strconv.Itoa n = strconv.Itoa m -> n = m.
Proof.
  intros Hn Hm H. pose proof (Atoi_Itoa n Hn) as En.
  rewrite H, (Atoi_Itoa m Hm) in En. congruence.
Qed.

(** X1: two pull-request specs with the same route variables have the same
    repo URI and the same number, and two comment specs with the same
    route variables moreover have the same comment id (the numbers being
    ints). *)
Theorem RouteVars_injective :
  (forall s s' : PullRequestSpec,
     strconv.is_int (Number s) -> strconv.is_int (Number s') ->
     RouteVars s = RouteVars s' ->
     URI (Repo s) = URI (Repo s') /\ Number s = Number s')
  /\
  (forall c c' : PullRequestCommentSpec,
     strconv.is_int (Number (Pull c)) -> strconv.is_int (Number (Pull c')) ->
     strconv.is_int (Comment c) -> strconv.is_int (Comment c') ->
     CommentRouteVars c = CommentRouteVars c' ->
     URI (Repo (Pull c)) = URI (Repo (Pull c')) /\
     Number (Pull c) = Number (Pull c') /\ Comment c = Comment c').
Proof.
  split.
  - intros s s' Hn Hn' H.
    pose proof (f_equal (.!! "RepoSpec"%string) H) as Hr.
    pose proof (f_equal (.!! "Pull"%string) H) as Hp.
    rewrite !RouteVars_lookup in Hr, Hp.
    repeat case_decide; try done.
    injection Hr as Hr. injection Hp as Hp. split; [done|by apply Itoa_inj].
  - intros c c' Hn Hn' Hc Hc' H.
    pose proof (f_equal (.!! "RepoSpec"%string) H) as Hr.
    pose proof (f_equal (.!! "Pull"%string) H) as Hp.
    pose proof (f_equal (.!! "CommentID"%string) H) as Hi.
    rewrite !CommentRouteVars_lookup, ?RouteVars_lookup in Hr, Hp, Hi.
    repeat case_decide; try done.
    injection Hr as Hr. injection Hp as Hp. injection Hi as Hi.
    split_and!; [done|by apply Itoa_inj..].
Qed.

Lemma RouteVars_injective_witness :
  let s := {| Repo := {| URI := "a/b" |}; Number := 5 |} in
  URI (Repo s) = URI (Repo s) /\ Number s = Number s.
Proof.
  intros s. apply (proj1 RouteVars_injective s s); try reflexivity;
    apply is_int_small; simpl; lia.
Defined.

(** ** Unmarshalling, beyond the left inverse *)

Section Unmarshal_more.
Variable UnmarshalRepoSpec : gmap string string -> RepoSpec * option error.

Local Abbreviation UPS := (UnmarshalPullRequestSpec UnmarshalRepoSpec).
Local Abbreviation UPCS := (UnmarshalPullRequestCommentSpec UnmarshalRepoSpec).

Lemma UnmarshalPullRequestSpec_succeeds (v : gmap string string) (s : PullRequestSpec) :
  UPS v = (s, None) <->
  UnmarshalRepoSpec v = (Repo s, None) /\
  strconv.decimalValue (index v "Pull") = Some (Number s) /\
  strconv.is_int (Number s).
Proof.
  rewrite UnmarshalPullRequestSpec_unfold. rewrite <- Atoi_ok_iff.
  destruct (UnmarshalRepoSpec v) as [repo [e|]].
  - split; [discriminate|]. by intros [[=] _].
  - destruct (strconv.Atoi (index v "Pull")) as [n err]. cbn [fst snd].
    destruct s as [r m]. cbn [Repo Number]. split.
    + by intros [= -> -> ->].
    + by intros [[= ->] [= -> ->]].
Qed.

(** X2: UnmarshalPullRequestSpec succeeds exactly when the repo extraction
    succeeds and the Pull entry is a decimal numeral of an int, and then it
    returns the extracted repo with the numeral's value: the number it
    returns is always within the int range. *)
Theorem UnmarshalPullRequestSpec_ok_iff (v : gmap string string) (s : PullRequestSpec) :
  UPS v = (s, None) <->
  UnmarshalRepoSpec v = (Repo s, None) /\
  strconv.decimalValue (index v "Pull") = Some (Number s) /\
  strconv.is_int (Number s).
Proof. apply UnmarshalPullRequestSpec_succeeds. Qed.

(** X3: UnmarshalPullRequestCommentSpec succeeds exactly when
    UnmarshalPullRequestSpec succeeds on the same map and the CommentID
    entry is a decimal numeral of an int; it then returns that pull spec
    and the numeral's value. *)
Theorem UnmarshalPullRequestCommentSpec_ok_iff
    (v : gmap string string) (c : PullRequestCommentSpec) :
  UPCS v = (c, None) <->
  UPS v = (Pull c, None) /\
  strconv.decimalValue (index v "CommentID") = Some (Comment c) /\
  strconv.is_int (Comment c).
Proof.
  unfold UnmarshalPullRequestCommentSpec. rewrite <- Atoi_ok_iff.
  destruct (UPS v) as [pull [e|]]; cbv zeta.
  - split; [discriminate|]. by intros [[=] _].
  - destruct (strconv.Atoi (index v "CommentID")) as [n [e|]].
    + split; [discriminate|]. by intros [_ [=]].
    + destruct c as [p m]. cbn [Pull Comment]. split.
      * by intros [= -> ->].
      * by intros [[= ->] [= ->]].
Qed.

(** X4: the errors of UnmarshalPullRequestCommentSpec, in order.  An error
    of UnmarshalPullRequestSpec is returned as it is and the CommentID
    entry plays no part; otherwise a missing or malformed CommentID gives
    Atoi's error on it.  Either way the spec returned is the zero value. *)
Theorem UnmarshalPullRequestCommentSpec_errors (v : gmap string string) :
  (forall e, snd (UPS v) = Some e -> UPCS v = (zeroPullRequestCommentSpec, Some e))
  /\
  (forall pull, UPS v = (pull, None) ->
     ~ strconv.validDecimalInt (index v "CommentID") ->
     UPCS v = (zeroPullRequestCommentSpec, snd (strconv.Atoi (index v "CommentID")))
     /\ snd (strconv.Atoi (index v "CommentID")) <> None)
  /\
  (snd (UPCS v) <> None <->
   snd (UPS v) <> None \/ ~ strconv.validDecimalInt (index v "CommentID")).
Proof.
  unfold UnmarshalPullRequestCommentSpec. split_and!.
  - intros e He. destruct (UPS v) as [pull [e1|]]; cbn [snd] in He; [|done].
    by injection He as ->.
  - intros pull -> Hbad. cbv zeta.
    destruct (strconv.Atoi (index v "CommentID")) as [n [e|]] eqn:EA; [done|].
    exfalso. apply Hbad, Atoi_nil_iff. by rewrite EA.
  - destruct (UPS v) as [pull [e1|]]; cbv zeta; cbn [snd].
    + split; [by left|done].
    + rewrite <- Atoi_nil_iff.
      destruct (strconv.Atoi (index v "CommentID")) as [n [e|]]; cbn [snd].
      * split; [by right|done].
      * split; [done|]. by intros [|].
Qed.

(** X5: the route variables of a comment spec unmarshal, as a pull-request
    spec, to the comment's pull request (the CommentID entry is ignored);
    the route variables of a pull-request spec, which lack CommentID, are
    refused by the comment unmarshaller with Atoi's syntax error on the
    empty string. *)
Theorem Unmarshal_across_specs :
  (forall c : PullRequestCommentSpec,
     recovers UnmarshalRepoSpec (Repo (Pull c)) ->
     strconv.is_int (Number (Pull c)) ->
     UPS (CommentRouteVars c) = (Pull c, None))
  /\
  (forall s : PullRequestSpec,
     recovers UnmarshalRepoSpec (Repo s) -> strconv.is_int (Number s) ->
     UPCS (RouteVars s)
     = (zeroPullRequestCommentSpec, Some (NumError "Atoi" "" ErrSyntax))).
Proof.
  split.
  - intros c Hrec Hn. apply UnmarshalPullRequestSpec_succeeds.
    assert (Hidx : index (CommentRouteVars c) "Pull" = strconv.Itoa (Number (Pull c))).
    { unfold index. rewrite CommentRouteVars_lookup, RouteVars_lookup.
      by repeat case_decide. }
    split_and!; [|by apply Atoi_ok_iff; rewrite Hidx; apply Atoi_Itoa|done].
    apply Hrec. rewrite CommentRouteVars_lookup, RouteVars_lookup.
    by repeat case_decide.
  - intros s Hrec Hn. unfold UnmarshalPullRequestCommentSpec.
    rewrite UnmarshalPullRequestSpec_RouteVars by done. cbv zeta.
    assert (index (RouteVars s) "CommentID" = ""%string) as ->; [|done].
    unfold index. rewrite RouteVars_lookup. by repeat case_decide.
Qed.

(** X6: a spec that UnmarshalPullRequestSpec returned survives the round
    trip through its own route variables; these need not be the map it came
    from (a Pull entry +5 comes back as 5), but their Pull entry denotes
    the same number. *)
Theorem Unmarshal_RouteVars_Unmarshal (v : gmap string string) (s : PullRequestSpec) :
  UPS v = (s, None) ->
  recovers UnmarshalRepoSpec (Repo s) ->
  UPS (RouteVars s) = (s, None)
  /\ strconv.decimalValue (index (RouteVars s) "Pull")
     = strconv.decimalValue (index v "Pull").
Proof.
  intros Hok Hrec. apply UnmarshalPullRequestSpec_succeeds in Hok as (Hr & Hd & Hi).
  split; [by apply UnmarshalPullRequestSpec_RouteVars|].
  rewrite Hd, index_RouteVars_Pull.
  by apply (proj1 (Atoi_ok_iff _ _) (Atoi_Itoa _ Hi)).
Qed.

End Unmarshal_more.

Lemma UnmarshalPullRequestSpec_ok_iff_witness :
  UnmarshalPullRequestSpec sampleUnmarshalRepoSpec
    {[ "RepoSpec"%string := "a/b"%string; "Pull"%string := "+5"%string ]}
  = ({| Repo := {| URI := "a/b" |}; Number := 5 |}, None).
Proof.
  apply UnmarshalPullRequestSpec_ok_iff. split_and!; [reflexivity..|].
  apply is_int_small. simpl. lia.
Defined.

Lemma UnmarshalPullRequestCommentSpec_ok_iff_witness :
  UnmarshalPullRequestCommentSpec sampleUnmarshalRepoSpec
    {[ "RepoSpec"%string := "a/b"%string; "Pull"%string := "5"%string;
       "CommentID"%string := "007"%string ]}
  = ({| Pull := {| Repo := {| URI := "a/b" |}; Number := 5 |}; Comment := 7 |}, None).
Proof.
  apply UnmarshalPullRequestCommentSpec_ok_iff. split_and!; [reflexivity..|].
  apply is_int_small. simpl. lia.
Defined.

Lemma UnmarshalPullRequestCommentSpec_errors_witness :
  UnmarshalPullRequestCommentSpec sampleUnmarshalRepoSpec
    {[ "CommentID"%string := "7"%string ]}
  = (zeroPullRequestCommentSpec, Some (Foreign "empty repo spec")).
Proof.
  apply (proj1 (UnmarshalPullRequestCommentSpec_errors sampleUnmarshalRepoSpec _)).
  reflexivity.
Defined.

Lemma Unmarshal_across_specs_witness :
  let c := {| Pull := {| Repo := {| URI := "a/b" |}; Number := 5 |}; Comment := 7 |} in
  UnmarshalPullRequestSpec sampleUnmarshalRepoSpec (CommentRouteVars c) = (Pull c, None).
Proof.
  intros c. apply (proj1 (Unmarshal_across_specs sampleUnmarshalRepoSpec)).
  - apply sampleUnmarshalRepoSpec_recovers. discriminate.
  - apply is_int_small. simpl. lia.
Defined.

Lemma Unmarshal_RouteVars_Unmarshal_witness :
  let s := {| Repo := {| URI := "a/b" |}; Number := 5 |} in
  UnmarshalPullRequestSpec sampleUnmarshalRepoSpec (RouteVars s) = (s, None).
Proof.
  intros s.
  refine (proj1 (Unmarshal_RouteVars_Unmarshal sampleUnmarshalRepoSpec
    {[ "RepoSpec"%string := "a/b"%string; "Pull"%string := "+5"%string ]} s _ _)).
  - reflexivity.
  - apply sampleUnmarshalRepoSpec_recovers. discriminate.
Defined.

(** ** What [Spec] makes of a URL *)

Section Spec_more.
Import strings.

Lemma genSplit_not_nil sep skip cur s : genSplit sep skip cur s <> [].
Proof.
  revert skip cur. induction s as [|b s IH]; intros skip cur; [done|].
  cbn [genSplit]. destruct skip; [|done]. by destruct (HasPrefix _ _).
Qed.

Lemma Join_cons a l sep :
  l <> [] -> Join (a :: l) sep = a +:+ sep +:+ Join l sep.
Proof. by destruct l. Qed.

(** Joining the segments with the separator gives the text back. *)
Lemma Join_genSplit c s : forall cur,
  Join (genSplit (String c "") 0 cur s) (String c "") = cur +:+ s.
Proof.
  induction s as [|b s IH]; intros cur.
  - cbn. by rewrite append_empty_r.
  - cbn [genSplit]. rewrite HasPrefix_byte.
    destruct (Ascii.eqb c b) eqn:E.
    + apply Ascii.eqb_eq in E as <-.
      rewrite Join_cons by apply genSplit_not_nil.
      cbn [String.length Nat.sub]. by rewrite IH.
    + rewrite IH. by rewrite append_assoc.
Qed.

Lemma free_of_app c a b : free_of c a -> free_of c b -> free_of c (a +:+ b).
Proof.
  intros Ha Hb. induction a as [|x a IH]; [done|].
  apply free_of_cons in Ha as [Hx Ha].
  change (String x a +:+ b) with (String x (a +:+ b)).
  apply free_of_cons. auto.
Qed.

Lemma free_of_empty c : free_of c "".
Proof. reflexivity. Qed.

(** No segment holds the separator. *)
Lemma genSplit_free c s : forall cur,
  free_of c cur -> Forall (free_of c) (genSplit (String c "") 0 cur s).
Proof.
  induction s as [|b s IH]; intros cur Hcur.
  - by constructor.
  - cbn [genSplit]. rewrite HasPrefix_byte.
    destruct (Ascii.eqb c b) eqn:E.
    + constructor; [done|]. apply IH, free_of_empty.
    + apply IH, free_of_app; [done|].
      apply free_of_cons. split; [done|apply free_of_empty].
Qed.

Lemma count_byte_app c a b :
  count_byte c (a +:+ b) = (count_byte c a + count_byte c b)%nat.
Proof.
  induction a as [|x a IH]; [done|].
  change (String x a +:+ b) with (String x (a +:+ b)).
  cbn [count_byte]. rewrite IH. lia.
Qed.

Lemma count_byte_free c s : free_of c s -> count_byte c s = 0%nat.
Proof.
  induction s as [|x s IH]; [done|]. intros [Hx Hs]%free_of_cons.
  cbn [count_byte]. rewrite Hx, IH by done. done.
Qed.

(** X7: whenever Spec returns, the repo URI it returns is the beginning of
    the HTMLURL (less its https:// prefix), up to the end or to a slash;
    it holds exactly two slashes; and the number is the Number field,
    whatever the URL says. *)
Theorem Spec_result_shape (r : PullRequest) (ps : PullRequestSpec) :
  Spec r = Returns ps ->
  exists url tail,
    github.HTMLURL r = Some url
    /\ TrimPrefix url "https://" = URI (Repo ps) +:+ tail
    /\ (tail = ""%string \/ HasPrefix tail "/" = true)
    /\ count_byte "/" (URI (Repo ps)) = 2%nat
    /\ github.Number r = Some (Number ps).
Proof.
  unfold Spec, slice_0_3. intros H.
  destruct (github.HTMLURL r) as [url|]; [|discriminate].
  cbn [deref obind] in H. case_decide as Hlen; [|discriminate].
  cbn [obind] in H. destruct (github.Number r) as [n|]; [|discriminate].
  cbn [deref obind] in H. injection H as <-. cbn [Repo URI Number].
  set (t := TrimPrefix url "https://") in *.
  pose proof (Join_genSplit "/" t "") as HJ.
  pose proof (genSplit_free "/" t "" (free_of_empty _)) as HF.
  change ("" +:+ t) with t in HJ.
  fold (Split t "/") in HJ, HF |- *.
  change (genSplit "/" 0 "" t) with (Split t "/") in *.
  destruct (Split t "/") as [|a [|b [|d rest]]]; cbn [length] in Hlen; try lia.
  apply Forall_cons in HF as [Ha HF]. apply Forall_cons in HF as [Hb HF].
  apply Forall_cons in HF as [Hd HF].
  cbn [take].
  assert (Hcount : count_byte "/" (Join [a; b; d] "/") = 2%nat).
  { cbn [Join]. rewrite !count_byte_app.
    rewrite (count_byte_free _ a), (count_byte_free _ b), (count_byte_free _ d)
      by done.
    reflexivity. }
  destruct rest as [|x rest].
  - exists url, ""%string. rewrite append_empty_r. subst t. split_and!; auto.
  - exists url, (String "/" (Join (x :: rest) "/")). cbn [take].
    split_and!; [done| |right; by rewrite HasPrefix_byte|done|done].
    subst t. rewrite <- HJ. rewrite !Join_cons by done.
    cbn [Join]. by rewrite !append_assoc.
Qed.

Lemma Spec_result_shape_witness :
  exists url tail,
    Some "https://github.com/a/b/pull/9"%string = Some url
    /\ TrimPrefix url "https://" = "github.com/a/b" +:+ tail
    /\ (tail = ""%string \/ HasPrefix tail "/" = true)
    /\ count_byte "/" "github.com/a/b" = 2%nat
    /\ Some 5 = Some 5.
Proof.
  apply (Spec_result_shape
           {| github.Number := Some 5;
              github.HTMLURL := Some "https://github.com/a/b/pull/9"%string |}
           {| Repo := {| URI := "github.com/a/b" |}; Number := 5 |}).
  reflexivity.
Defined.

(** X8: only the https scheme is trimmed.  For an HTMLURL that begins with
    http:// the scheme and the empty text between its two slashes count as
    segments, so Spec returns the URI http://host and leaves out the two
    path segments. *)
Theorem Spec_of_http_url (r : PullRequest) (host tail : string) (n : Z) :
  free_of "/" host ->
  tail = ""%string \/ HasPrefix tail "/" = true ->
  github.HTMLURL r = Some ("http://" +:+ host +:+ tail) ->
  github.Number r = Some n ->
  Spec r = Returns {| Repo := {| URI := "http://" +:+ host |}; Number := n |}.
Proof.
  intros Hh Htail Hurl Hn. unfold Spec. rewrite Hurl, Hn. cbn [deref obind].
  assert (Htrim : TrimPrefix ("http://" +:+ host +:+ tail) "https://"
                  = "http:" +:+ "/" +:+ "" +:+ "/" +:+ host +:+ tail) by reflexivity.
  rewrite Htrim.
  destruct (Split_three "/" "http:" "" host tail) as [Htake Hlen];
    [reflexivity|reflexivity|done|done|].
  unfold slice_0_3. rewrite decide_True by done. cbn [obind].
  rewrite Htake. reflexivity.
Qed.

Lemma Spec_of_http_url_witness :
  Spec {| github.Number := Some 5;
          github.HTMLURL := Some "http://github.com/a/b/pull/5"%string |}
  = Returns {| Repo := {| URI := "http://github.com" |}; Number := 5 |}.
Proof.
  apply (Spec_of_http_url _ "github.com" "/a/b/pull/5" 5); try reflexivity.
  right. reflexivity.
Defined.

End Spec_more.

(** ** The service methods and their client *)

Section Services_facts.
Variables URL Request Response ListOptions : Type.
Variable URL_String : URL -> string.
Variable client_url :
  route -> gmap string string -> urlOptions ListOptions -> URL * option error.
Variable client_NewRequest :
  string -> string -> option PullRequestComment -> Request * option error.
Variable client_Do : forall T : Type, Request -> T -> T * option Response * option error.
Variable RepoSpec_RouteVars : RepoSpec -> gmap string string.

Local Abbreviation get :=
  (Get URL Request Response ListOptions URL_String
     client_url client_NewRequest client_Do).
Local Abbreviation listByRepo :=
  (ListByRepo URL Request Response ListOptions URL_String
     client_url client_NewRequest client_Do RepoSpec_RouteVars).
Local Abbreviation listComments :=
  (ListComments URL Request Response ListOptions URL_String
     client_url client_NewRequest client_Do).
Local Abbreviation createComment :=
  (CreateComment URL Request Response ListOptions URL_String
     client_url client_NewRequest client_Do).
Local Abbreviation editComment :=
  (EditComment_on URL Request Response ListOptions URL_String
     client_url client_NewRequest client_Do).
Local Abbreviation deleteComment :=
  (DeleteComment URL Request Response ListOptions URL_String
     client_url client_NewRequest client_Do).

(** The three calls of one exchange with the client. *)
Local Abbreviation calls r vars verb u body rq :=
  [UrlBuilt r vars; RequestConstructed verb (URL_String u) body; RequestSent rq].

Local Abbreviation commentOf pull id :=
  (CommentRouteVars {| Pull := pull; Comment := id |}).

Ltac run_service :=
  unfold Get, ListByRepo, ListComments, CreateComment, DeleteComment,
    EditComment_on, EditComment, url_with, Do_into,
    call_url, call_NewRequest, call_Do, bind, emit, ret;
  cbn beta iota zeta.

Ltac with_answer H := rewrite ?H; cbn beta iota zeta; rewrite <- ?app_assoc.

(** X9: when the client cannot build the URL, every method returns the
    client's error as it is with nil results, and neither constructs nor
    sends a request: the URL builder is the only thing it called. *)
Theorem service_without_url pull repo c id commentID
    getOpt listOpt commentsOpt (log : list (event Request)) e :
  (forall u, client_url RepoPullRequest (RouteVars pull) (GetOptions getOpt)
             = (u, Some e) ->
     get pull getOpt log
     = ((None, None, Some e), log ++ [UrlBuilt RepoPullRequest (RouteVars pull)]))
  /\
  (forall u, client_url RepoPullRequests (RepoSpec_RouteVars repo) (ListOptionsOf listOpt)
             = (u, Some e) ->
     listByRepo repo listOpt log
     = (([], None, Some e),
        log ++ [UrlBuilt RepoPullRequests (RepoSpec_RouteVars repo)]))
  /\
  (forall u, client_url RepoPullRequestComments (RouteVars pull)
               (ListCommentsOptionsOf commentsOpt) = (u, Some e) ->
     listComments pull commentsOpt log
     = (([], None, Some e),
        log ++ [UrlBuilt RepoPullRequestComments (RouteVars pull)]))
  /\
  (forall u, client_url RepoPullRequestCommentsCreate (RouteVars pull) NilOptions
             = (u, Some e) ->
     createComment pull c log
     = ((None, None, Some e),
        log ++ [UrlBuilt RepoPullRequestCommentsCreate (RouteVars pull)]))
  /\
  (forall u, github.ID (comment c) = Some id ->
     client_url RepoPullRequestCommentsEdit (commentOf pull id) NilOptions
     = (u, Some e) ->
     editComment pull c log
     = ((None, None, Some e),
        log ++ [UrlBuilt RepoPullRequestCommentsEdit (commentOf pull id)]))
  /\
  (forall u, client_url RepoPullRequestCommentsDelete (commentOf pull commentID) NilOptions
             = (u, Some e) ->
     deleteComment pull commentID log
     = ((None, Some e),
        log ++ [UrlBuilt RepoPullRequestCommentsDelete (commentOf pull commentID)])).
Proof.
  split_and!; intros u.
  - intros H. run_service. by with_answer H.
  - intros H. run_service. by with_answer H.
  - intros H. run_service. by with_answer H.
  - intros H. run_service. by with_answer H.
  - intros Hid H. run_service. rewrite Hid. cbn beta iota zeta. by with_answer H.
  - intros H. run_service. by with_answer H.
Qed.

(** X10: when the URL is built but the request cannot be constructed,
    every method returns that error as it is with nil results, and sends
    nothing.  The verb is GET for the three reading methods, POST to create,
    PATCH to edit and DELETE to delete; only creating and editing give the
    request a body, the comment. *)
Theorem service_without_request pull repo c id commentID
    getOpt listOpt commentsOpt (log : list (event Request)) u rq e :
  (client_url RepoPullRequest (RouteVars pull) (GetOptions getOpt) = (u, None) ->
   client_NewRequest "GET" (URL_String u) None = (rq, Some e) ->
   get pull getOpt log
   = ((None, None, Some e),
      log ++ take 2 (calls RepoPullRequest (RouteVars pull) "GET" u None rq)))
  /\
  (client_url RepoPullRequests (RepoSpec_RouteVars repo) (ListOptionsOf listOpt)
   = (u, None) ->
   client_NewRequest "GET" (URL_String u) None = (rq, Some e) ->
   listByRepo repo listOpt log
   = (([], None, Some e),
      log ++ take 2 (calls RepoPullRequests (RepoSpec_RouteVars repo) "GET" u None rq)))
  /\
  (client_url RepoPullRequestComments (RouteVars pull)
     (ListCommentsOptionsOf commentsOpt) = (u, None) ->
   client_NewRequest "GET" (URL_String u) None = (rq, Some e) ->
   listComments pull commentsOpt log
   = (([], None, Some e),
      log ++ take 2 (calls RepoPullRequestComments (RouteVars pull) "GET" u None rq)))
  /\
  (client_url RepoPullRequestCommentsCreate (RouteVars pull) NilOptions = (u, None) ->
   client_NewRequest "POST" (URL_String u) (Some c) = (rq, Some e) ->
   createComment pull c log
   = ((None, None, Some e),
      log ++ take 2 (calls RepoPullRequestCommentsCreate (RouteVars pull)
                       "POST" u (Some c) rq)))
  /\
  (github.ID (comment c) = Some id ->
   client_url RepoPullRequestCommentsEdit (commentOf pull id) NilOptions = (u, None) ->
   client_NewRequest "PATCH" (URL_String u) (Some c) = (rq, Some e) ->
   editComment pull c log
   = ((None, None, Some e),
      log ++ take 2 (calls RepoPullRequestCommentsEdit (commentOf pull id)
                       "PATCH" u (Some c) rq)))
  /\
  (client_url RepoPullRequestCommentsDelete (commentOf pull commentID) NilOptions
   = (u, None) ->
   client_NewRequest "DELETE" (URL_String u) None = (rq, Some e) ->
   deleteComment pull commentID log
   = ((None, Some e),
      log ++ take 2 (calls RepoPullRequestCommentsDelete (commentOf pull commentID)
                       "DELETE" u None rq))).
Proof.
  split_and!.
  - intros H1 H2. run_service. with_answer H1. by with_answer H2.
  - intros H1 H2. run_service. with_answer H1. by with_answer H2.
  - intros H1 H2. run_service. with_answer H1. by with_answer H2.
  - intros H1 H2. run_service. with_answer H1. by with_answer H2.
  - intros Hid H1 H2. run_service. rewrite Hid. cbn beta iota zeta.
    with_answer H1. by with_answer H2.
  - intros H1 H2. run_service. with_answer H1. by with_answer H2.
Qed.

(** X11: when the transport fails, the three reading methods (Get,
    ListByRepo, ListComments) hand back the transport's response next to
    its error, while CreateComment, EditComment and DeleteComment drop the
    response and return nil for it.  In every case what the transport
    decoded is dropped. *)
Theorem service_transport_failure pull repo c id commentID
    getOpt listOpt commentsOpt (log : list (event Request)) u rq resp e :
  (forall v,
   client_url RepoPullRequest (RouteVars pull) (GetOptions getOpt) = (u, None) ->
   client_NewRequest "GET" (URL_String u) None = (rq, None) ->
   client_Do (option PullRequest) rq None = (v, resp, Some e) ->
   get pull getOpt log
   = ((None, resp, Some e),
      log ++ calls RepoPullRequest (RouteVars pull) "GET" u None rq))
  /\
  (forall v,
   client_url RepoPullRequests (RepoSpec_RouteVars repo) (ListOptionsOf listOpt)
   = (u, None) ->
   client_NewRequest "GET" (URL_String u) None = (rq, None) ->
   client_Do (list (option PullRequest)) rq [] = (v, resp, Some e) ->
   listByRepo repo listOpt log
   = (([], resp, Some e),
      log ++ calls RepoPullRequests (RepoSpec_RouteVars repo) "GET" u None rq))
  /\
  (forall v,
   client_url RepoPullRequestComments (RouteVars pull)
     (ListCommentsOptionsOf commentsOpt) = (u, None) ->
   client_NewRequest "GET" (URL_String u) None = (rq, None) ->
   client_Do (list (option PullRequestComment)) rq [] = (v, resp, Some e) ->
   listComments pull commentsOpt log
   = (([], resp, Some e),
      log ++ calls RepoPullRequestComments (RouteVars pull) "GET" u None rq))
  /\
  (forall v,
   client_url RepoPullRequestCommentsCreate (RouteVars pull) NilOptions = (u, None) ->
   client_NewRequest "POST" (URL_String u) (Some c) = (rq, None) ->
   client_Do PullRequestComment rq zeroPullRequestComment = (v, resp, Some e) ->
   createComment pull c log
   = ((None, None, Some e),
      log ++ calls RepoPullRequestCommentsCreate (RouteVars pull) "POST" u (Some c) rq))
  /\
  (forall v,
   github.ID (comment c) = Some id ->
   client_url RepoPullRequestCommentsEdit (commentOf pull id) NilOptions = (u, None) ->
   client_NewRequest "PATCH" (URL_String u) (Some c) = (rq, None) ->
   client_Do PullRequestComment rq zeroPullRequestComment = (v, resp, Some e) ->
   editComment pull c log
   = ((None, None, Some e),
      log ++ calls RepoPullRequestCommentsEdit (commentOf pull id) "PATCH" u (Some c) rq))
  /\
  (forall v,
   client_url RepoPullRequestCommentsDelete (commentOf pull commentID) NilOptions
   = (u, None) ->
   client_NewRequest "DELETE" (URL_String u) None = (rq, None) ->
   client_Do unit rq tt = (v, resp, Some e) ->
   deleteComment pull commentID log
   = ((None, Some e),
      log ++ calls RepoPullRequestCommentsDelete (commentOf pull commentID)
               "DELETE" u None rq)).
Proof.
  split_and!; intros v.
  - intros H1 H2 H3. run_service. with_answer H1. with_answer H2. by with_answer H3.
  - intros H1 H2 H3. run_service. with_answer H1. with_answer H2. by with_answer H3.
  - intros H1 H2 H3. run_service. with_answer H1. with_answer H2. by with_answer H3.
  - intros H1 H2 H3. run_service. with_answer H1. with_answer H2. by with_answer H3.
  - intros Hid H1 H2 H3. run_service. rewrite Hid. cbn beta iota zeta.
    with_answer H1. with_answer H2. by with_answer H3.
  - intros H1 H2 H3. run_service. with_answer H1. with_answer H2. by with_answer H3.
Qed.

(** X12: when the client answers all three calls without error, every
    method returns what the transport decoded into its target (a pointer
    to it for CreateComment and EditComment) together with the transport's
    response and a nil error, after exactly the three calls: the URL of the
    method's route from the route variables (of the pull request, of the
    repo, or of the comment for EditComment and DeleteComment), the
    request, and its sending. *)
Theorem service_success pull repo c id commentID
    getOpt listOpt commentsOpt (log : list (event Request)) u rq resp :
  (forall v,
   client_url RepoPullRequest (RouteVars pull) (GetOptions getOpt) = (u, None) ->
   client_NewRequest "GET" (URL_String u) None = (rq, None) ->
   client_Do (option PullRequest) rq None = (v, resp, None) ->
   get pull getOpt log
   = ((v, resp, None), log ++ calls RepoPullRequest (RouteVars pull) "GET" u None rq))
  /\
  (forall v,
   client_url RepoPullRequests (RepoSpec_RouteVars repo) (ListOptionsOf listOpt)
   = (u, None) ->
   client_NewRequest "GET" (URL_String u) None = (rq, None) ->
   client_Do (list (option PullRequest)) rq [] = (v, resp, None) ->
   listByRepo repo listOpt log
   = ((v, resp, None),
      log ++ calls RepoPullRequests (RepoSpec_RouteVars repo) "GET" u None rq))
  /\
  (forall v,
   client_url RepoPullRequestComments (RouteVars pull)
     (ListCommentsOptionsOf commentsOpt) = (u, None) ->
   client_NewRequest "GET" (URL_String u) None = (rq, None) ->
   client_Do (list (option PullRequestComment)) rq [] = (v, resp, None) ->
   listComments pull commentsOpt log
   = ((v, resp, None),
      log ++ calls RepoPullRequestComments (RouteVars pull) "GET" u None rq))
  /\
  (forall v,
   client_url RepoPullRequestCommentsCreate (RouteVars pull) NilOptions = (u, None) ->
   client_NewRequest "POST" (URL_String u) (Some c) = (rq, None) ->
   client_Do PullRequestComment rq zeroPullRequestComment = (v, resp, None) ->
   createComment pull c log
   = ((Some v, resp, None),
      log ++ calls RepoPullRequestCommentsCreate (RouteVars pull) "POST" u (Some c) rq))
  /\
  (forall v,
   github.ID (comment c) = Some id ->
   client_url RepoPullRequestCommentsEdit (commentOf pull id) NilOptions = (u, None) ->
   client_NewRequest "PATCH" (URL_String u) (Some c) = (rq, None) ->
   client_Do PullRequestComment rq zeroPullRequestComment = (v, resp, None) ->
   editComment pull c log
   = ((Some v, resp, None),
      log ++ calls RepoPullRequestCommentsEdit (commentOf pull id) "PATCH" u (Some c) rq))
  /\
  (forall v,
   client_url RepoPullRequestCommentsDelete (commentOf pull commentID) NilOptions
   = (u, None) ->
   client_NewRequest "DELETE" (URL_String u) None = (rq, None) ->
   client_Do unit rq tt = (v, resp, None) ->
   deleteComment pull commentID log
   = ((resp, None),
      log ++ calls RepoPullRequestCommentsDelete (commentOf pull commentID)
               "DELETE" u None rq)).
Proof.
  split_and!; intros v.
  - intros H1 H2 H3. run_service. with_answer H1. with_answer H2. by with_answer H3.
  - intros H1 H2 H3. run_service. with_answer H1. with_answer H2. by with_answer H3.
  - intros H1 H2 H3. run_service. with_answer H1. with_answer H2. by with_answer H3.
  - intros H1 H2 H3. run_service. with_answer H1. with_answer H2. by with_answer H3.
  - intros Hid H1 H2 H3. run_service. rewrite Hid. cbn beta iota zeta.
    with_answer H1. with_answer H2. by with_answer H3.
  - intros H1 H2 H3. run_service. with_answer H1. with_answer H2. by with_answer H3.
Qed.

Ltac run_to_end :=
  run_service;
  destruct (client_url _ _ _) as [? [?|]]; cbn beta iota zeta;
    [exists 1%nat; cbn [fst snd take]; split_and!; [lia|lia|done|done]|];
  destruct (client_NewRequest _ _ _) as [? [?|]]; cbn beta iota zeta;
    [exists 2%nat; cbn [fst snd take]; rewrite <- ?app_assoc;
     split_and!; [lia|lia|done|done]|];
  destruct (client_Do _ _ _) as [[? ?] [?|]]; cbn beta iota zeta;
    exists 3%nat; cbn [fst snd take]; rewrite <- ?app_assoc;
    split_and!; (lia || done).

(** X13: whatever the client answers, a method asks it for the URL first
    and makes at most three calls, in the order URL, request, sending, each
    at most once and each only after the one before it; it returns a nil
    error only after all three.  Nothing that was in the log is touched. *)
Theorem service_call_discipline pull repo c id commentID
    getOpt listOpt commentsOpt (log : list (event Request)) :
  (let u := fst (client_url RepoPullRequest (RouteVars pull) (GetOptions getOpt)) in
   let rq := fst (client_NewRequest "GET" (URL_String u) None) in
   exists k, (1 <= k <= 3)%nat /\
     snd (get pull getOpt log)
     = log ++ take k (calls RepoPullRequest (RouteVars pull) "GET" u None rq) /\
     (snd (fst (get pull getOpt log)) = None -> k = 3%nat))
  /\
  (let u := fst (client_url RepoPullRequests (RepoSpec_RouteVars repo)
                   (ListOptionsOf listOpt)) in
   let rq := fst (client_NewRequest "GET" (URL_String u) None) in
   exists k, (1 <= k <= 3)%nat /\
     snd (listByRepo repo listOpt log)
     = log ++ take k (calls RepoPullRequests (RepoSpec_RouteVars repo) "GET" u None rq) /\
     (snd (fst (listByRepo repo listOpt log)) = None -> k = 3%nat))
  /\
  (let u := fst (client_url RepoPullRequestComments (RouteVars pull)
                   (ListCommentsOptionsOf commentsOpt)) in
   let rq := fst (client_NewRequest "GET" (URL_String u) None) in
   exists k, (1 <= k <= 3)%nat /\
     snd (listComments pull commentsOpt log)
     = log ++ take k (calls RepoPullRequestComments (RouteVars pull) "GET" u None rq) /\
     (snd (fst (listComments pull commentsOpt log)) = None -> k = 3%nat))
  /\
  (let u := fst (client_url RepoPullRequestCommentsCreate (RouteVars pull) NilOptions) in
   let rq := fst (client_NewRequest "POST" (URL_String u) (Some c)) in
   exists k, (1 <= k <= 3)%nat /\
     snd (createComment pull c log)
     = log ++ take k (calls RepoPullRequestCommentsCreate (RouteVars pull)
                        "POST" u (Some c) rq) /\
     (snd (fst (createComment pull c log)) = None -> k = 3%nat))
  /\
  (github.ID (comment c) = Some id ->
   let u := fst (client_url RepoPullRequestCommentsEdit (commentOf pull id) NilOptions) in
   let rq := fst (client_NewRequest "PATCH" (URL_String u) (Some c)) in
   exists k, (1 <= k <= 3)%nat /\
     snd (editComment pull c log)
     = log ++ take k (calls RepoPullRequestCommentsEdit (commentOf pull id)
                        "PATCH" u (Some c) rq) /\
     (snd (fst (editComment pull c log)) = None -> k = 3%nat))
  /\
  (let u := fst (client_url RepoPullRequestCommentsDelete (commentOf pull commentID)
                   NilOptions) in
   let rq := fst (client_NewRequest "DELETE" (URL_String u) None) in
   exists k, (1 <= k <= 3)%nat /\
     snd (deleteComment pull commentID log)
     = log ++ take k (calls RepoPullRequestCommentsDelete (commentOf pull commentID)
                        "DELETE" u None rq) /\
     (snd (fst (deleteComment pull commentID log)) = None -> k = 3%nat)).
Proof.
  split_and!; cbv zeta.
  - run_to_end.
  - run_to_end.
  - run_to_end.
  - run_to_end.
  - intros Hid. unfold EditComment_on, EditComment. rewrite Hid. run_to_end.
  - run_to_end.
Qed.

End Services_facts.

(** Runs on the sample client. *)

Lemma service_without_url_witness :
  let pull := {| Repo := {| URI := "a/b" |}; Number := 5 |} in
  Get string string Z unit (fun u => u)
    (sample_url false) (sample_NewRequest true) (sample_Do true) pull None []
  = ((None, None, Some (Foreign "no such route")),
     [UrlBuilt RepoPullRequest (RouteVars pull)]).
Proof.
  intros pull.
  apply (proj1 (service_without_url string string Z unit (fun u => u)
                  (sample_url false) (sample_NewRequest true) (sample_Do true)
                  sample_RepoSpec_RouteVars pull zeroRepoSpec zeroPullRequestComment
                  0 0 None None None [] (Foreign "no such route")) ""%string).
  reflexivity.
Defined.

Lemma service_without_request_witness :
  let pull := {| Repo := {| URI := "a/b" |}; Number := 5 |} in
  DeleteComment string string Z unit (fun u => u)
    (sample_url true) (sample_NewRequest false) (sample_Do true) pull 7 []
  = ((None, Some (Foreign "malformed URL")),
     [UrlBuilt RepoPullRequestCommentsDelete
        (CommentRouteVars {| Pull := pull; Comment := 7 |});
      RequestConstructed "DELETE" "/repos/a/b/pulls/5" None]).
Proof.
  intros pull.
  apply (proj2 (proj2 (proj2 (proj2 (proj2
    (service_without_request string string Z unit (fun u => u)
       (sample_url true) (sample_NewRequest false) (sample_Do true)
       sample_RepoSpec_RouteVars pull zeroRepoSpec zeroPullRequestComment
       0 7 None None None [] "/repos/a/b/pulls/5"%string ""%string
       (Foreign "malformed URL")))))));
    reflexivity.
Defined.

Lemma service_transport_failure_witness :
  let pull := {| Repo := {| URI := "a/b" |}; Number := 5 |} in
  Get string string Z unit (fun u => u)
    (sample_url true) (sample_NewRequest true) (sample_Do false) pull None []
  = ((None, Some 502, Some (Foreign "bad gateway")),
     [UrlBuilt RepoPullRequest (RouteVars pull);
      RequestConstructed "GET" "/repos/a/b/pulls/5" None;
      RequestSent "GET /repos/a/b/pulls/5"%string])
  /\
  CreateComment string string Z unit (fun u => u)
    (sample_url true) (sample_NewRequest true) (sample_Do false)
    pull zeroPullRequestComment []
  = ((None, None, Some (Foreign "bad gateway")),
     [UrlBuilt RepoPullRequestCommentsCreate (RouteVars pull);
      RequestConstructed "POST" "/repos/a/b/pulls/5" (Some zeroPullRequestComment);
      RequestSent "POST /repos/a/b/pulls/5"%string]).
Proof.
  intros pull.
  pose proof (service_transport_failure string string Z unit (fun u => u)
    (sample_url true) (sample_NewRequest true) (sample_Do false)
    sample_RepoSpec_RouteVars pull zeroRepoSpec zeroPullRequestComment
    0 0 None None None [] "/repos/a/b/pulls/5"%string) as H.
  split.
  - apply (proj1 (H "GET /repos/a/b/pulls/5"%string (Some 502)
                    (Foreign "bad gateway")) None); reflexivity.
  - apply (proj1 (proj2 (proj2 (proj2
             (H "POST /repos/a/b/pulls/5"%string (Some 502)
                (Foreign "bad gateway"))))) zeroPullRequestComment); reflexivity.
Defined.

Lemma service_success_witness :
  let pull := {| Repo := {| URI := "a/b" |}; Number := 5 |} in
  ListByRepo string string Z unit (fun u => u)
    (sample_url true) (sample_NewRequest true) (sample_Do true)
    sample_RepoSpec_RouteVars {| URI := "a/b" |} None []
  = (([], Some 200, None),
     [UrlBuilt RepoPullRequests {[ "RepoSpec"%string := "a/b"%string ]};
      RequestConstructed "GET" "/repos/a/b/pulls/" None;
      RequestSent "GET /repos/a/b/pulls/"%string]).
Proof.
  intros pull.
  apply (proj1 (proj2
    (service_success string string Z unit (fun u => u)
       (sample_url true) (sample_NewRequest true) (sample_Do true)
       sample_RepoSpec_RouteVars pull {| URI := "a/b" |} zeroPullRequestComment
       0 0 None None None [] "/repos/a/b/pulls/"%string
       "GET /repos/a/b/pulls/"%string (Some 200))) []);
    reflexivity.
Defined.

Lemma service_call_discipline_witness :
  let pull := {| Repo := {| URI := "a/b" |}; Number := 5 |} in
  let c := {| Published := true;
              comment := {| github.ID := Some 7; github.Body := None |} |} in
  exists k, (1 <= k <= 3)%nat /\
    snd (EditComment_on string string Z unit (fun u => u)
           (sample_url true) (sample_NewRequest true) (sample_Do false) pull c [])
    = take k [UrlBuilt RepoPullRequestCommentsEdit
                (CommentRouteVars {| Pull := pull; Comment := 7 |});
              RequestConstructed "PATCH" "/repos/a/b/pulls/5" (Some c);
              RequestSent "PATCH /repos/a/b/pulls/5"%string] /\
    (snd (fst (EditComment_on string string Z unit (fun u => u)
                 (sample_url true) (sample_NewRequest true) (sample_Do false)
                 pull c [])) = None -> k = 3%nat).
Proof.
  intros pull c.
  apply (proj1 (proj2 (proj2 (proj2 (proj2
    (service_call_discipline string string Z unit (fun u => u)
       (sample_url true) (sample_NewRequest true) (sample_Do false)
       sample_RepoSpec_RouteVars pull zeroRepoSpec c 7 0 None None None [])))))).
  reflexivity.
Defined.
